(** * Chaos-Game: a shallow embedding of [chaosgame.py]

    The development follows the source file top to bottom:
    - [lcyc], the cyclic rotation of a bit mask (Python integers are
      unbounded, hence [Z] with [Z.shiftl], [Z.shiftr], [Z.lor], [Z.land]);
    - [Transformation] and its method [transform];
    - the class [ChaosGame] and its three subclasses, with the methods
      [choose_transform], [choose_vertex] and [generate_points].

    Conventions of the embedding.
    - Python floats are read as real numbers ([R]); rounding is not modelled.
      [cos], [sin] and [PI] are those of the standard library of reals.
    - A Python exception is a value [Raise e] of the type [result]; the state
      of the object after an uncaught exception is not modelled.
    - The module [random] is a generator state threaded through the calls
      (type [rng]); [randint] and [random] read it in call order.
    - Of the matplotlib calls only the two [ax.scatter] calls can raise on
      the data of the object; they are modelled by [scatter]. The other
      calls ([plt], [fig], [ax.axis]) only set up and draw the figure and
      are left out. *)

From Stdlib Require Import ZArith List String Bool Lia Reals Lra.
Import ListNotations.

Local Open Scope Z_scope.

(** ** Exceptions and results *)

Inductive exn : Set :=
| KeyError
| IndexError
| ValueError
| TypeError
| AttributeError.

Inductive result (A : Type) : Type :=
| Ok (a : A)
| Raise (e : exn).

Arguments Ok {A} a.
Arguments Raise {A} e.

Definition rbind {A B : Type} (r : result A) (k : A -> result B) : result B :=
  match r with
  | Ok a => k a
  | Raise e => Raise e
  end.

Declare Scope result_scope.
Delimit Scope result_scope with result.

Notation "x <- r ;; k" := (rbind r (fun x => k))
  (at level 61, r at next level, right associativity) : result_scope.

(** [for x in l: acc = body(acc, x)] where the body may raise. *)
Fixpoint rfold {A B : Type} (body : B -> A -> result B) (l : list A) (acc : B)
  : result B :=
  match l with
  | [] => Ok acc
  | x :: l' => rbind (body acc x) (rfold body l')
  end.

(** [[f(x) for x in l]] where [f] may raise. *)
Fixpoint rmap {A B : Type} (f : A -> result B) (l : list A) : result (list B) :=
  match l with
  | [] => Ok []
  | x :: l' => rbind (f x) (fun y => rbind (rmap f l') (fun ys => Ok (y :: ys)))
  end.

(** ** Python sequences *)

(** [l[i]]: a negative index counts from the end; out of range raises
    [IndexError]. *)
Definition getitem {A : Type} (l : list A) (i : Z) : result A :=
  let len := Z.of_nat (List.length l) in
  let j := if i <? 0 then len + i else i in
  if (0 <=? j) && (j <? len)
  then match nth_error l (Z.to_nat j) with
       | Some a => Ok a
       | None => Raise IndexError
       end
  else Raise IndexError.

(** [l[a:]]: slicing clips and never raises. *)
Definition slice_from {A : Type} (l : list A) (a : Z) : list A :=
  let len := Z.of_nat (List.length l) in
  let start := if a <? 0 then Z.max (len + a) 0 else Z.min a len in
  skipn (Z.to_nat start) l.

(** [range(n)] as a list; empty when [n <= 0]. *)
Definition range (n : Z) : list Z :=
  map Z.of_nat (seq 0 (Z.to_nat n)).

(** ** [lcyc] *)

(** [n >> k] and [n << k] raise [ValueError] on a negative shift count. *)
Definition py_shiftr (n k : Z) : result Z :=
  if k <? 0 then Raise ValueError else Ok (Z.shiftr n k).

Definition py_shiftl (n k : Z) : result Z :=
  if k <? 0 then Raise ValueError else Ok (Z.shiftl n k).

(** [def lcyc(N, n, k): return ((n >> (N-k)) | (n << k)) & ((1 << N) - 1)] *)
Definition lcyc (N n k : Z) : result Z :=
  (hi <- py_shiftr n (N - k) ;;
   lo <- py_shiftl n k ;;
   top <- py_shiftl 1 N ;;
   Ok (Z.land (Z.lor hi lo) (top - 1)))%result.

(** The value computed by [lcyc] when no shift count is negative. *)
Definition lcyc_val (N n k : Z) : Z :=
  Z.land (Z.lor (Z.shiftr n (N - k)) (Z.shiftl n k)) (Z.shiftl 1 N - 1).

(** ** The module [random] *)

(** The generator is a tape of raw draws, read front to back (an exhausted
    tape reads [0]).  Only two facts about Python's generator are used: a
    draw depends on nothing but the generator, and it lies in the range the
    library documents. *)
Definition rng : Type := list Z.

(** Code that draws random numbers and may raise. *)
Definition M (A : Type) : Type := rng -> result (A * rng).

Definition mret {A : Type} (a : A) : M A := fun g => Ok (a, g).

Definition mbind {A B : Type} (m : M A) (k : A -> M B) : M B :=
  fun g => match m g with
           | Ok (a, g') => k a g'
           | Raise e => Raise e
           end.

Definition lift {A : Type} (r : result A) : M A :=
  fun g => match r with
           | Ok a => Ok (a, g)
           | Raise e => Raise e
           end.

Declare Scope M_scope.
Delimit Scope M_scope with M.

Notation "x <- m ;; k" := (mbind m (fun x => k))
  (at level 61, m at next level, right associativity) : M_scope.

(** [for _ in range(n): self = body(self)] *)
Fixpoint repeatM {A : Type} (n : nat) (body : A -> M A) (a : A) : M A :=
  match n with
  | O => mret a
  | S n' => mbind (body a) (repeatM n' body)
  end.

(** [randint(a, b)]: an integer in [[a, b]]; [ValueError] on an empty range. *)
Definition randint (a b : Z) : M Z :=
  fun g => if a <=? b
           then Ok (a + hd 0 g mod (b - a + 1), tl g)
           else Raise ValueError.

(** [random()]: a float in [[0, 1)], a 53-bit integer over [2^53]. *)
Definition random : M R :=
  fun g => let raw := hd 0 g mod 2 ^ 53 in
           Ok ((IZR raw / IZR (2 ^ 53))%R, tl g).

(** ** [class Transformation] *)

Definition point : Type := (R * R)%type.

Record Transformation : Type := mkTransformation {
  scale : R;
  rotation : R;
  prob : R
}.

(** [Transformation()] with the default arguments
    [scale=0.5, rotation=0, prob=1]. *)
Definition Transformation_default : Transformation :=
  mkTransformation (5 / 10) 0 1.

Definition transform (self : Transformation) (p1 p2 : point) : point :=
  let p2n := (fst p2 - fst p1, snd p2 - snd p1)%R in
  let p2n := (scale self * fst p2n, scale self * snd p2n)%R in
  let p2n :=
    (fst p2n * cos (rotation self) - snd p2n * sin (rotation self),
     fst p2n * sin (rotation self) + snd p2n * cos (rotation self))%R in
  let p2n := (fst p2n + fst p1, snd p2n + snd p1)%R in
  p2n.

(** ** [class ChaosGame] and its subclasses *)

(** The class of the object decides which [choose_vertex] and
    [choose_transform] run. *)
Inductive class : Set :=
| Base              (* ChaosGame *)
| HistExc           (* ChaosGameHistExc *)
| HistExc2          (* ChaosGameHistExc2 *)
| TargetTransform.  (* ChaosGameTargetTransform *)

(** [quality] is a preset name or a point size. *)
Inductive quality : Type :=
| Preset (name : string)
| Size (r : R).

(** The values [generate_points] hands to [choose_transform(self, *args)]:
    an [int] or a tuple of two floats. *)
Inductive pyval : Type :=
| PyInt (z : Z)
| PyTuple (p : point).

(** [l[v]] for a value [v]: a list index must be an integer. *)
Definition subscript {A : Type} (l : list A) (v : pyval) : result A :=
  match v with
  | PyInt z => getitem l z
  | PyTuple _ => Raise TypeError
  end.

Record ChaosGame : Type := mkChaosGame {
  klass : class;
  point_size : R;
  num_targets : Z;
  transformations : list Transformation;
  coloring : list (list R);
  vertices : list point;
  points : list point;
  colors : list (list R);
  (** [self.verts] does not exist before the first [generate_points]. *)
  verts : option (list Z);
  (** Set by [ChaosGameHistExc] and [ChaosGameHistExc2] only. *)
  excluded : Z;
  (** Set by [ChaosGameHistExc] only. *)
  hist_len : Z
}.

Definition set_points (self : ChaosGame) (ps : list point) : ChaosGame :=
  mkChaosGame (klass self) (point_size self) (num_targets self)
    (transformations self) (coloring self) (vertices self) ps (colors self)
    (verts self) (excluded self) (hist_len self).

Definition set_colors (self : ChaosGame) (cs : list (list R)) : ChaosGame :=
  mkChaosGame (klass self) (point_size self) (num_targets self)
    (transformations self) (coloring self) (vertices self) (points self) cs
    (verts self) (excluded self) (hist_len self).

Definition set_verts (self : ChaosGame) (vs : list Z) : ChaosGame :=
  mkChaosGame (klass self) (point_size self) (num_targets self)
    (transformations self) (coloring self) (vertices self) (points self)
    (colors self) (Some vs) (excluded self) (hist_len self).

Definition set_subclass (self : ChaosGame) (c : class) (exc hl : Z)
  : ChaosGame :=
  mkChaosGame c (point_size self) (num_targets self)
    (transformations self) (coloring self) (vertices self) (points self)
    (colors self) (verts self) exc hl.

(** [self.verts], an [AttributeError] while it does not exist. *)
Definition get_verts (self : ChaosGame) : result (list Z) :=
  match verts self with
  | Some vs => Ok vs
  | None => Raise AttributeError
  end.

(** The dictionary of presets in [__init__]. *)
Definition quality_presets (name : string) : result R :=
  if String.eqb name "rough" then Ok 1%R
  else if String.eqb name "low" then Ok (5 / 10)%R
  else if String.eqb name "medium" then Ok (2 / 10)%R
  else if String.eqb name "fine" then Ok (5 / 100)%R
  else Raise KeyError.

Definition make_vertices (num_targets : Z) : list point :=
  if num_targets mod 2 =? 0
  then map (fun i => (cos (2 * PI / IZR num_targets * IZR i),
                      sin (2 * PI / IZR num_targets * IZR i))%R)
           (range num_targets)
  else map (fun i => (cos (PI / 2 - 2 * PI / IZR num_targets * IZR i),
                      sin (PI / 2 - 2 * PI / IZR num_targets * IZR i))%R)
           (range num_targets).

Definition default_transformations : list Transformation :=
  [Transformation_default].

Definition default_coloring : list (list R) :=
  [[255; 0; 0]; [0; 255; 0]; [0; 0; 255]; [255; 255; 0]]%R.

(** A colour channel that the plot accepts: a number in [[0, 1]]. *)
Definition channel_ok (c : R) : bool :=
  if Rle_dec 0 c then (if Rle_dec c 1 then true else false) else false.

(** [self.ax.scatter] of the unzipped points [pts] with the colours [cs]
    (none when the call names one colour, as [color='black'] does).  With
    no point the unzipping yields nothing, the arguments [x] and [y] are
    missing and the call raises [TypeError]; a colour with a channel
    outside [[0, 1]] is refused with [ValueError]. *)
Definition scatter (pts : list point) (cs : list (list R)) : result unit :=
  match pts with
  | [] => Raise TypeError
  | _ :: _ =>
      if forallb (forallb channel_ok) cs then Ok tt else Raise ValueError
  end.

(** [ChaosGame.__init__(self, *, quality, num_targets, transformations,
    coloring)]; the vertices are scattered in black. *)
Definition ChaosGame_init (q : quality) (num_targets : Z)
    (transformations : list Transformation) (coloring : list (list R))
  : result ChaosGame :=
  (point_size <- match q with
                 | Preset name => quality_presets name
                 | Size r => Ok r
                 end ;;
   plotted <- scatter (make_vertices num_targets) [] ;;
   Ok (mkChaosGame Base point_size num_targets transformations coloring
         (make_vertices num_targets) [(0, 0)%R] [] None 0 0))%result.

(** [sum(2**i for i in excluded)]; the entries are indices, hence [nat]. *)
Definition excluded_mask (excluded : list nat) : Z :=
  fold_left (fun acc i => acc + 2 ^ Z.of_nat i) excluded 0.

(** [ChaosGameHistExc.__init__(self, hist_len, excluded, *args, **kwargs)] *)
Definition ChaosGameHistExc_init (hist_len : Z) (excluded : list nat)
    (q : quality) (num_targets : Z)
    (transformations : list Transformation) (coloring : list (list R))
  : result ChaosGame :=
  (self <- ChaosGame_init q num_targets transformations coloring ;;
   Ok (set_subclass self HistExc (excluded_mask excluded) hist_len))%result.

(** [ChaosGameHistExc2.__init__(self, excluded, *args, **kwargs)] *)
Definition ChaosGameHistExc2_init (excluded : list nat)
    (q : quality) (num_targets : Z)
    (transformations : list Transformation) (coloring : list (list R))
  : result ChaosGame :=
  (self <- ChaosGame_init q num_targets transformations coloring ;;
   Ok (set_subclass self HistExc2
         (if 0 <? Z.of_nat (List.length excluded)
          then excluded_mask excluded else 0) 0))%result.

(** [ChaosGameTargetTransform.__init__(self, *args, **kwargs)] *)
Definition ChaosGameTargetTransform_init
    (q : quality) (num_targets : Z)
    (transformations : list Transformation) (coloring : list (list R))
  : result ChaosGame :=
  (self <- ChaosGame_init q num_targets transformations coloring ;;
   Ok (set_subclass self TargetTransform 0 0))%result.

(** *** [choose_transform] *)

(** The loop of [ChaosGame.choose_transform]: walk the list, return the
    first transformation whose [prob] exceeds what is left of [p]; falling
    off the end of the loop returns [None]. *)
Fixpoint walk_transformations (p : R) (ts : list Transformation)
  : option Transformation :=
  match ts with
  | [] => None
  | t :: ts' =>
      if Rlt_dec p (prob t) then Some t
      else walk_transformations (p - prob t) ts'
  end.

(** [self.choose_transform(arg)].  [ChaosGame.choose_transform(self, *args)]
    ignores its argument; [ChaosGameTargetTransform.choose_transform(self,
    vert)] returns [self.transformations[vert]]. *)
Definition choose_transform (self : ChaosGame) (arg : pyval)
  : M (option Transformation) :=
  match klass self with
  | TargetTransform =>
      lift (t <- subscript (transformations self) arg ;; Ok (Some t))%result
  | _ =>
      (p <- random ;;
       mret (walk_transformations p (transformations self)))%M
  end.

(** *** [choose_vertex] *)

(** [[i for i in range(num_targets) if not (exc & (1 << i))]] *)
Definition verts_avail (num_targets exc : Z) : list Z :=
  filter (fun i => Z.land exc (Z.shiftl 1 i) =? 0) (range num_targets).

(** [verts_avail[randint(0, len(verts_avail)-1)]] *)
Definition pick_avail (avail : list Z) : M Z :=
  (r <- randint 0 (Z.of_nat (List.length avail) - 1) ;;
   lift (getitem avail r))%M.

(** The loop of [ChaosGameHistExc.choose_vertex]:
    [for _ in self.verts[-self.hist_len:]:
         exc |= lcyc(self.num_targets, self.excluded, self.verts[-1])] *)
Definition hist_exc_mask (num_targets excluded hist_len : Z) (vs : list Z)
  : result Z :=
  rfold (fun exc (_ : Z) =>
           (last <- getitem vs (-1) ;;
            rot <- lcyc num_targets excluded last ;;
            Ok (Z.lor exc rot))%result)
        (slice_from vs (- hist_len)) 0.

Definition choose_vertex (self : ChaosGame) : M Z :=
  match klass self with
  | HistExc =>
      (vs <- lift (get_verts self) ;;
       exc <- lift (hist_exc_mask (num_targets self) (excluded self)
                      (hist_len self) vs) ;;
       pick_avail (verts_avail (num_targets self) exc))%M
  | HistExc2 =>
      (vs <- lift (get_verts self) ;;
       a <- lift (getitem vs (-1)) ;;
       b <- lift (getitem vs (-2)) ;;
       if a =? b
       then (exc <- lift (lcyc (num_targets self) (excluded self) a) ;;
             pick_avail (verts_avail (num_targets self) exc))
       else randint 0 (num_targets self - 1))%M
  | _ => randint 0 (num_targets self - 1)
  end.

(** *** [generate_points] *)

(** [trans.transform], the bound method; [trans] may be [None]. *)
Definition transform_method (trans : option Transformation)
  : result (point -> point -> point) :=
  match trans with
  | Some t => Ok (transform t)
  | None => Raise AttributeError
  end.

(** The body of the first loop of [generate_points]. *)
Definition gen_step (self : ChaosGame) : M ChaosGame :=
  (old <- lift (get_verts self) ;;
   v <- choose_vertex self ;;
   let self := set_verts self (slice_from old 1 ++ [v]) in
   vs <- lift (get_verts self) ;;
   i <- lift (getitem vs (-1)) ;;
   last_vert <- lift (getitem (vertices self) i) ;;
   trans <- choose_transform self (PyTuple last_vert) ;;
   method <- lift (transform_method trans) ;;
   last_point <- lift (getitem (points self) (-1)) ;;
   mret (set_points self (points self ++ [method last_point last_vert])))%M.

(** [self.coloring[k][i]] *)
Definition corner (coloring : list (list R)) (k i : Z) : result R :=
  (c <- getitem coloring k ;; getitem c i)%result.

(** The body of the second loop of [generate_points]: the colour of one
    point. *)
Definition color_of (coloring : list (list R)) (pt : point)
  : result (list R) :=
  let pt := ((fst pt + 1) / 2, (snd pt + 1) / 2)%R in
  rmap (fun i =>
          (c0 <- corner coloring 0 i ;;
           c1 <- corner coloring 1 i ;;
           c2 <- corner coloring 2 i ;;
           c3 <- corner coloring 3 i ;;
           Ok (((c0 * (1 - snd pt) + c1 * snd pt) * fst pt +
                (c2 * (1 - snd pt) + c3 * snd pt) * (1 - fst pt)) / 256)%R
          )%result)
       (range 3).

(** [generate_points(self, n)] *)
Definition generate_points (n : Z) (self : ChaosGame) : M ChaosGame :=
  let self := set_points self (slice_from (points self) (-1)) in
  let self := set_colors self [] in
  let self := set_verts self [0; 0; 0] in
  (self <- repeatM (Z.to_nat n) gen_step self ;;
   cs <- lift (rmap (color_of (coloring self)) (points self)) ;;
   let self := set_colors self (colors self ++ cs) in
   plotted <- lift (scatter (points self) (colors self)) ;;
   mret self)%M.

(** * Definitions used in the statements *)

(** Formulas of the specification, sessions and inputs the theorems are
    stated on. *)

(** The point the specification describes for a step: the contraction of
    [from] toward [anchor], that is
    [anchor + scale * R(rotation) * (from - anchor)]. *)
Definition contraction (t : Transformation) (anchor from : point) : point :=
  (fst anchor +
     (scale t * (fst from - fst anchor) * cos (rotation t) -
      scale t * (snd from - snd anchor) * sin (rotation t)),
   snd anchor +
     (scale t * (fst from - fst anchor) * sin (rotation t) +
      scale t * (snd from - snd anchor) * cos (rotation t)))%R.

(** A session as [ChaosGame(quality=1, num_targets=6,
    transformations=ts)] builds it. *)
Definition hexagon_session (ts : list Transformation) : ChaosGame :=
  mkChaosGame Base 1 6 ts default_coloring (make_vertices 6)
    [(0, 0)%R] [] None 0 0.

(** A transformation that moves a quarter of the way, without rotation. *)
Definition quarter : Transformation := mkTransformation (1 / 4) 0 1.

(** The sum of the weights. *)
Definition sum_probs (ts : list Transformation) : R :=
  fold_right (fun t acc => (prob t + acc)%R) 0%R ts.

(** What is left of [p] when the loop reaches index [i]: the weights of
    the entries before [i] subtracted from [p] one after the other, as
    [p -= self.transformations[i].prob] does. *)
Definition remaining (p : R) (ts : list Transformation) (i : nat) : R :=
  fold_left (fun r t => (r - prob t)%R) (firstn i ts) p.

(** The keys of the dictionary of presets. *)
Definition preset_names : list string :=
  ["rough"; "low"; "medium"; "fine"]%string.

(** Weights that sum to [0.999999] and weights that sum to [0.5]. *)
Definition weights_nearly_one : list Transformation :=
  [mkTransformation (5 / 10) 0 (5 / 10);
   mkTransformation (6 / 10) (PI / 3) (499999 / 1000000)].

Definition weights_half : list Transformation :=
  [mkTransformation (5 / 10) 0 (1 / 4);
   mkTransformation (6 / 10) (PI / 3) (1 / 4)].

(** One transformation per vertex of the hexagon. *)
Definition six_transformations : list Transformation :=
  [mkTransformation (5 / 10) 0 1; mkTransformation (4 / 10) 0 1;
   mkTransformation (3 / 10) 0 1; mkTransformation (5 / 10) 0 1;
   mkTransformation (4 / 10) 0 1; mkTransformation (3 / 10) 0 1].

(** A [ChaosGameHistExc] object with the given mask and history depth. *)
Definition hist_exc_session (exc hl : Z) (vs : list Z) : ChaosGame :=
  set_verts (set_subclass (hexagon_session default_transformations)
               HistExc exc hl) vs.

(** The mask of forbidden vertices at a step with history [vs]: the rotated
    exclusion mask for [ChaosGameHistExc], the same after a repeated vertex
    for [ChaosGameHistExc2], and nothing otherwise. *)
Definition forbidden_mask (s : ChaosGame) (vs : list Z) : result Z :=
  match klass s with
  | HistExc => hist_exc_mask (num_targets s) (excluded s) (hist_len s) vs
  | HistExc2 =>
      (a <- getitem vs (-1) ;;
       b <- getitem vs (-2) ;;
       if a =? b then lcyc (num_targets s) (excluded s) a else Ok 0)%result
  | _ => Ok 0
  end.

(** An exclusion list that names all six offsets. *)
Definition all_excluded : list nat := [0; 1; 2; 3; 4; 5]%nat.

(** The three assignments that open [generate_points]: keep the last point,
    empty the colours, start the history again at [[0, 0, 0]]. *)
Definition reset (s : ChaosGame) : ChaosGame :=
  set_verts (set_colors (set_points s (slice_from (points s) (-1))) [])
    [0; 0; 0].

(** [steps_choosing s g vs s' g']: from the session [s] and the generator
    [g], successive steps of the first loop of [generate_points] choose the
    vertices [vs], in this order, and reach [s'] and [g'].  The vertex of a
    step is what [choose_vertex] returns to it, and the point the step
    appends is the image of [vertices[v]] under one of the transformations,
    anchored at the last point. *)
Inductive steps_choosing
  : ChaosGame -> rng -> list Z -> ChaosGame -> rng -> Prop :=
| steps_done (s : ChaosGame) (g : rng) : steps_choosing s g [] s g
| steps_next (s s1 s' : ChaosGame) (g g1 g2 g' : rng) (v : Z)
    (V last : point) (t : Transformation) (vs : list Z) :
    choose_vertex s g = Ok (v, g1) ->
    getitem (vertices s) v = Ok V ->
    getitem (points s) (-1) = Ok last ->
    In t (transformations s) ->
    gen_step s g = Ok (s1, g2) ->
    points s1 = points s ++ [transform t last V] ->
    steps_choosing s1 g2 vs s' g' ->
    steps_choosing s g (v :: vs) s' g'.

(** The vertices that the call [generate_points(n)] chooses on the session
    [s] with the generator [g]: those of its [n] steps, which start from
    the session as the call resets it. *)
Definition batch_chooses (n : Z) (s : ChaosGame) (g : rng)
    (chosen : list Z) : Prop :=
  List.length chosen = Z.to_nat n /\
  exists sm g', steps_choosing (reset s) g chosen sm g'.

(** What [generate_points] never assigns. *)
Definition config (s : ChaosGame)
  : class * Z * list Transformation * list (list R) * list point :=
  (klass s, num_targets s, transformations s, coloring s, vertices s).

(** The hexagon of [ChaosGameHistExc(hist_len=1, excluded=[0])]: a vertex
    is not to be chosen twice in a row. *)
Definition no_repeat_session : ChaosGame :=
  set_subclass (hexagon_session default_transformations) HistExc
    (excluded_mask [0%nat]) 1.

(** The mask of a step on which the exclusion applies: the history-aware
    class and the shape of the history it needs. *)
Definition exclusion_applies (s : ChaosGame) (vs : list Z) (a : Z) : Prop :=
  getitem vs (-1) = Ok a /\
  ((klass s = HistExc /\ - Z.of_nat (List.length vs) < hist_len s) \/
   (klass s = HistExc2 /\ getitem vs (-2) = Ok a)).

(** What the constructor fixes. *)
Definition settings (s : ChaosGame)
  : class * R * Z * list Transformation * list (list R) * list point * Z * Z :=
  (klass s, point_size s, num_targets s, transformations s, coloring s,
   vertices s, excluded s, hist_len s).

(** Every point but the first comes from its predecessor by one of the
    transformations [ts], applied at one of the vertices [vx]. *)
Fixpoint chained (ts : list Transformation) (vx : list point)
    (l : list point) : Prop :=
  match l with
  | p :: (q :: _) as rest =>
      (exists t V, In t ts /\ In V vx /\ q = transform t p V) /\
      chained ts vx rest
  | _ => True
  end.

(** A point of the closed unit disc. *)
Definition in_unit_disc (p : point) : Prop :=
  (fst p * fst p + snd p * snd p <= 1)%R.

(** A transformation without rotation whose scale is in [[0, 1]]. *)
Definition plain_contraction (t : Transformation) : Prop :=
  rotation t = 0%R /\ (0 <= scale t <= 1)%R.

(** A channel value in [[lo, hi]]. *)
Definition between (lo hi x : R) : Prop := (lo <= x <= hi)%R.

(** * Properties *)

(** ** Reasoning about results and generators *)

Lemma rbind_ok_inv {A B : Type} (r : result A) (k : A -> result B) (b : B) :
  rbind r k = Ok b -> exists a, r = Ok a /\ k a = Ok b.
Proof.
  destruct r as [a|e]; simpl; intros H; [eauto | discriminate].
Qed.

Lemma mbind_ok_inv {A B : Type} (m : M A) (k : A -> M B) g b g' :
  mbind m k g = Ok (b, g') ->
  exists a g1, m g = Ok (a, g1) /\ k a g1 = Ok (b, g').
Proof.
  unfold mbind. destruct (m g) as [[a g1]|e]; intros H; [eauto | discriminate].
Qed.

Lemma mbind_ok {A B : Type} (m : M A) (k : A -> M B) g a g1 :
  m g = Ok (a, g1) -> mbind m k g = k a g1.
Proof. unfold mbind. intros ->. reflexivity. Qed.

Lemma mbind_raise {A B : Type} (m : M A) (k : A -> M B) g e :
  m g = Raise e -> mbind m k g = Raise e.
Proof. unfold mbind. intros ->. reflexivity. Qed.

Lemma lift_ok_inv {A : Type} (r : result A) g a g' :
  lift r g = Ok (a, g') -> r = Ok a /\ g' = g.
Proof.
  unfold lift. destruct r; intros H; inversion H; auto.
Qed.

Lemma lift_ok {A : Type} (r : result A) g a :
  r = Ok a -> lift r g = Ok (a, g).
Proof. intros ->. reflexivity. Qed.

Lemma mret_ok_inv {A : Type} (a b : A) g g' :
  mret a g = Ok (b, g') -> b = a /\ g' = g.
Proof. unfold mret. intros H. inversion H. auto. Qed.

Lemma repeatM_add {A : Type} (m n : nat) (body : A -> M A) (a : A) (g : rng) :
  repeatM (m + n) body a g = mbind (repeatM m body a) (repeatM n body) g.
Proof.
  revert a g. induction m as [|m IH]; intros a g; simpl.
  - reflexivity.
  - unfold mbind. destruct (body a g) as [[a1 g1]|e]; [|reflexivity].
    rewrite IH. reflexivity.
Qed.

Lemma repeatM_step {A : Type} (n : nat) (body : A -> M A) (a a1 a2 : A)
    (g g1 g2 : rng) :
  body a g = Ok (a1, g1) ->
  repeatM n body a1 g1 = Ok (a2, g2) ->
  repeatM (S n) body a g = Ok (a2, g2).
Proof.
  intros H1 H2. simpl. rewrite (mbind_ok _ _ _ _ _ H1). exact H2.
Qed.

(** ** Python sequences *)

Lemma getitem_ok_nth {A : Type} (l : list A) (i : Z) (x : A) :
  0 <= i -> nth_error l (Z.to_nat i) = Some x -> getitem l i = Ok x.
Proof.
  intros Hi Hn. unfold getitem.
  assert (Hlen : (Z.to_nat i < List.length l)%nat).
  { apply nth_error_Some. rewrite Hn. discriminate. }
  destruct (Z.ltb_spec i 0); [lia|].
  destruct (Z.leb_spec 0 i); [|lia].
  destruct (Z.ltb_spec i (Z.of_nat (List.length l))); [|lia].
  simpl. rewrite Hn. reflexivity.
Qed.

Lemma getitem_ok_inv {A : Type} (l : list A) (i : Z) (x : A) :
  getitem l i = Ok x -> In x l.
Proof.
  unfold getitem.
  destruct (_ && _); [|discriminate].
  destruct (nth_error l _) eqn:Hn; [|discriminate].
  intros H. inversion H. subst. eapply nth_error_In. eassumption.
Qed.

Lemma getitem_last {A : Type} (l : list A) (x : A) :
  getitem (l ++ [x]) (-1) = Ok x.
Proof.
  unfold getitem. rewrite length_app. simpl List.length.
  change (-1 <? 0) with true. cbv iota.
  replace (Z.of_nat (List.length l + 1) + -1) with (Z.of_nat (List.length l)) by lia.
  destruct (Z.leb_spec 0 (Z.of_nat (List.length l))); [|lia].
  destruct (Z.ltb_spec (Z.of_nat (List.length l))
              (Z.of_nat (List.length l + 1))); [|lia].
  simpl. rewrite Nat2Z.id.
  rewrite nth_error_app2 by lia. rewrite Nat.sub_diag. reflexivity.
Qed.

Lemma getitem_nil {A : Type} (i : Z) : getitem (@nil A) i = Raise IndexError.
Proof.
  unfold getitem. destruct (_ && _); [|reflexivity].
  destruct (Z.to_nat _); reflexivity.
Qed.

Lemma length_range (n : Z) : List.length (range n) = Z.to_nat n.
Proof. unfold range. rewrite length_map, length_seq. reflexivity. Qed.

Lemma in_range (n i : Z) : In i (range n) <-> 0 <= i < n.
Proof.
  unfold range. rewrite in_map_iff. split.
  - intros (k & <- & Hk). apply in_seq in Hk. lia.
  - intros Hi. exists (Z.to_nat i). split; [lia|]. apply in_seq. lia.
Qed.

Lemma nth_error_range (n i : Z) :
  0 <= i < n -> nth_error (range n) (Z.to_nat i) = Some i.
Proof.
  intros Hi. unfold range.
  rewrite nth_error_map, nth_error_seq.
  destruct (Nat.ltb_spec (Z.to_nat i) (Z.to_nat n)); [|lia].
  simpl. f_equal. lia.
Qed.

Lemma slice_from_last {A : Type} (l : list A) (x : A) :
  slice_from (l ++ [x]) (-1) = [x].
Proof.
  unfold slice_from. rewrite length_app. simpl List.length.
  change (-1 <? 0) with true. cbv iota.
  replace (Z.to_nat (Z.max (Z.of_nat (List.length l + 1) + -1) 0))
    with (List.length l) by lia.
  rewrite skipn_app, skipn_all, Nat.sub_diag. reflexivity.
Qed.

(** ** The generator *)

Lemma randint_ok (a b : Z) (g : rng) :
  a <= b ->
  exists v, randint a b g = Ok (v, tl g) /\ a <= v <= b.
Proof.
  intros Hab. unfold randint.
  destruct (Z.leb_spec a b); [|lia].
  eexists. split; [reflexivity|].
  assert (0 <= hd 0 g mod (b - a + 1) < b - a + 1)
    by (apply Z.mod_pos_bound; lia).
  lia.
Qed.

Lemma randint_empty (a b : Z) (g : rng) :
  b < a -> randint a b g = Raise ValueError.
Proof.
  intros Hab. unfold randint. destruct (Z.leb_spec a b); [lia | reflexivity].
Qed.

(** Every integer in range is drawn from some generator. *)
Lemma randint_any (a b v : Z) (g : rng) :
  a <= v <= b -> randint a b ((v - a) :: g) = Ok (v, g).
Proof.
  intros Hv. unfold randint.
  destruct (Z.leb_spec a b); [|lia].
  cbn [hd tl]. rewrite Z.mod_small by lia.
  replace (a + (v - a)) with v by lia. reflexivity.
Qed.

Lemma random_ok (g : rng) :
  exists p, random g = Ok (p, tl g) /\ (0 <= p < 1)%R.
Proof.
  unfold random. eexists. split; [reflexivity|].
  assert (Hpos : 0 < 2 ^ 53) by (apply Z.pow_pos_nonneg; lia).
  assert (Hm : 0 <= hd 0 g mod 2 ^ 53 < 2 ^ 53)
    by (apply Z.mod_pos_bound; exact Hpos).
  cbv zeta. revert Hm. generalize (hd 0 g mod 2 ^ 53). intros raw Hm.
  assert (H53 : (0 < IZR (2 ^ 53))%R) by (apply IZR_lt; exact Hpos).
  split.
  - apply Rmult_le_pos; [apply IZR_le; lia|].
    left. apply Rinv_0_lt_compat. exact H53.
  - apply Rmult_lt_reg_r with (r := IZR (2 ^ 53)); [exact H53|].
    unfold Rdiv. rewrite Rmult_assoc, Rinv_l by lra.
    rewrite Rmult_1_r, Rmult_1_l. apply IZR_lt. lia.
Qed.

(** ** The rotation [lcyc] *)

Lemma lcyc_ok (N n k : Z) :
  0 <= k <= N -> lcyc N n k = Ok (lcyc_val N n k).
Proof.
  intros Hk. unfold lcyc, py_shiftr, py_shiftl, lcyc_val.
  destruct (Z.ltb_spec (N - k) 0); [lia|].
  destruct (Z.ltb_spec k 0); [lia|].
  destruct (Z.ltb_spec N 0); [lia|].
  reflexivity.
Qed.

Lemma lcyc_val_testbit (N n k j : Z) :
  0 <= k <= N -> 0 <= j ->
  Z.testbit (lcyc_val N n k) j =
  (Z.testbit n (j + (N - k)) || Z.testbit n (j - k)) && (j <? N).
Proof.
  intros Hk Hj. unfold lcyc_val.
  rewrite Z.land_spec, Z.lor_spec.
  rewrite Z.shiftr_spec by lia.
  rewrite Z.shiftl_spec by lia.
  f_equal.
  rewrite Z.shiftl_1_l.
  replace (2 ^ N - 1) with (Z.ones N) by (rewrite Z.ones_equiv; lia).
  destruct (Z.ltb_spec j N).
  - apply Z.ones_spec_low; lia.
  - apply Z.ones_spec_high; lia.
Qed.

Lemma testbit_high (N n i : Z) :
  0 <= N -> 0 <= n < 2 ^ N -> N <= i -> Z.testbit n i = false.
Proof.
  intros HN Hn Hi.
  rewrite <- (Z.mod_small n (2 ^ N)) by lia.
  apply Z.mod_pow2_bits_high. lia.
Qed.

(** C7: for [N >= 1], an [N]-bit mask [n] and [0 <= k <= N], [lcyc N n k]
    returns the circular left rotation of [n] by [k] positions in an [N]-bit
    field: bit [(i + k) mod N] of the result is bit [i] of [n] for every [i]
    in [[0, N)], and no bit at position [N] or above is set. *)
Theorem lcyc_rotates (N n k : Z) :
  1 <= N -> 0 <= n < 2 ^ N -> 0 <= k <= N ->
  exists r,
    lcyc N n k = Ok r /\
    r = Z.land (Z.lor (Z.shiftr n (N - k)) (Z.shiftl n k)) (Z.shiftl 1 N - 1) /\
    (forall i, 0 <= i < N -> Z.testbit r ((i + k) mod N) = Z.testbit n i) /\
    (forall j, N <= j -> Z.testbit r j = false) /\
    0 <= r < 2 ^ N.
Proof.
  intros HN Hn Hk. exists (lcyc_val N n k).
  split; [apply lcyc_ok; lia|].
  split; [reflexivity|].
  assert (Hhigh : forall j, N <= j -> Z.testbit (lcyc_val N n k) j = false).
  { intros j Hj. rewrite lcyc_val_testbit by lia.
    destruct (Z.ltb_spec j N); [lia|]. apply andb_false_r. }
  split; [|split; [exact Hhigh|]].
  - intros i Hi.
    assert (Hm : 0 <= (i + k) mod N < N) by (apply Z.mod_pos_bound; lia).
    rewrite lcyc_val_testbit by lia.
    destruct (Z.ltb_spec ((i + k) mod N) N); [|lia].
    rewrite andb_true_r.
    destruct (Z_lt_le_dec (i + k) N) as [Hlt|Hge].
    + rewrite Z.mod_small by lia.
      rewrite (testbit_high N n (i + k + (N - k))) by lia.
      simpl. f_equal. lia.
    + replace ((i + k) mod N) with (i + k - N).
      2:{ apply Z.mod_unique with (q := 1); lia. }
      replace (i + k - N + (N - k)) with i by lia.
      rewrite (Z.testbit_neg_r n (i + k - N - k)) by lia.
      apply orb_false_r.
  - assert (Hnn : 0 <= lcyc_val N n k).
    { unfold lcyc_val. apply Z.land_nonneg. right.
      rewrite Z.shiftl_1_l. assert (0 < 2 ^ N) by (apply Z.pow_pos_nonneg; lia). lia. }
    split; [exact Hnn|].
    destruct (Z.eq_dec (lcyc_val N n k) 0) as [->|Hnz].
    + apply Z.pow_pos_nonneg; lia.
    + apply Z.log2_lt_pow2; [lia|].
      destruct (Z_lt_le_dec (Z.log2 (lcyc_val N n k)) N) as [|Hle]; [assumption|].
      specialize (Hhigh _ Hle).
      rewrite Z.bit_log2 in Hhigh by lia. discriminate.
Qed.

Lemma lcyc_rotates_witness :
  exists r,
    lcyc 6 5 2 = Ok r /\
    r = Z.land (Z.lor (Z.shiftr 5 (6 - 2)) (Z.shiftl 5 2)) (Z.shiftl 1 6 - 1) /\
    (forall i, 0 <= i < 6 -> Z.testbit r ((i + 2) mod 6) = Z.testbit 5 i) /\
    (forall j, 6 <= j -> Z.testbit r j = false) /\
    0 <= r < 2 ^ 6.
Proof.
  apply (lcyc_rotates 6 5 2); lia.
Defined.

(** Evaluate the embedding on a concrete input, leaving real arithmetic
    symbolic. *)
Ltac py_eval :=
  cbv -[IZR Rlt_dec Rle_dec cos sin PI Rplus Rmult Rminus Rdiv Rinv Ropp
        Rlt Rle].

(** Decide the comparisons [p < prob] left by [py_eval]. *)
Ltac decide_Rlt :=
  repeat match goal with
    | |- context [Rlt_dec ?a ?b] =>
        destruct (Rlt_dec a b); [try (exfalso; lra) | try (exfalso; lra)]
    end.

(** Equality of lists of points, one real coordinate at a time. *)
Ltac points_eq :=
  repeat match goal with
    | |- _ :: _ = _ :: _ => apply f_equal2
    | |- (_, _) = (_, _) => apply f_equal2
    | |- @nil _ = @nil _ => reflexivity
    | |- @eq R _ _ => lra
    end.

(** ** The colour of a point *)

(** C9: a point [(px, py)] is normalised to [x = (px+1)/2], [y = (py+1)/2]
    and channel [i] of its colour is
    [((tl[i]*(1-y) + tr[i]*y)*x + (bl[i]*(1-y) + br[i]*y)*(1-x)) / 256]
    for the corners [tl, tr, bl, br] = [coloring[0..3]]; for the point
    [(0, 0)] and the default corners the red channel is
    [((255*0.5 + 0*0.5)*0.5 + (0*0.5 + 255*0.5)*0.5) / 256 = 127.5 / 256]. *)
Theorem color_of_blend :
  (forall (tl0 tl1 tl2 tr0 tr1 tr2 bl0 bl1 bl2 br0 br1 br2 px py : R),
      let x := ((px + 1) / 2)%R in
      let y := ((py + 1) / 2)%R in
      color_of [[tl0; tl1; tl2]; [tr0; tr1; tr2];
                [bl0; bl1; bl2]; [br0; br1; br2]] (px, py) =
      Ok [((tl0 * (1 - y) + tr0 * y) * x + (bl0 * (1 - y) + br0 * y) * (1 - x))
          / 256;
          ((tl1 * (1 - y) + tr1 * y) * x + (bl1 * (1 - y) + br1 * y) * (1 - x))
          / 256;
          ((tl2 * (1 - y) + tr2 * y) * x + (bl2 * (1 - y) + br2 * y) * (1 - x))
          / 256]%R) /\
  (exists red green blue : R,
      color_of default_coloring (0, 0)%R = Ok [red; green; blue] /\
      red = (((255 * (5 / 10) + 0 * (5 / 10)) * (5 / 10) +
              (0 * (5 / 10) + 255 * (5 / 10)) * (5 / 10)) / 256)%R /\
      red = ((1275 / 10) / 256)%R).
Proof.
  split.
  - intros. subst x y. py_eval. reflexivity.
  - do 3 eexists. split; [py_eval; reflexivity|]. split; lra.
Qed.

(** ** One step of the generation *)

(** [transform] contracts its second argument toward its first. *)
Lemma transform_contraction (t : Transformation) (p1 p2 : point) :
  transform t p1 p2 = contraction t p1 p2.
Proof.
  unfold transform, contraction. cbv zeta. simpl fst. simpl snd.
  f_equal; ring.
Qed.

Lemma hexagon_session_init (ts : list Transformation) :
  ChaosGame_init (Size 1) 6 ts default_coloring = Ok (hexagon_session ts).
Proof. reflexivity. Qed.

Lemma hexagon_vertex_0 :
  getitem (make_vertices 6) 0 = Ok (1, 0)%R.
Proof.
  py_eval.
  replace (2 * PI / 6 * 0)%R with 0%R by lra.
  rewrite cos_0, sin_0. reflexivity.
Qed.

(** The first step of [generate_points] on the hexagon with [quarter], the
    generator drawing vertex [0]. *)
Lemma gen_step_hexagon_quarter :
  let s := set_verts (hexagon_session [quarter]) [0; 0; 0] in
  gen_step s [0; 0] =
  Ok (set_points s [(0, 0)%R;
                    transform quarter (0, 0)%R
                      (cos (2 * PI / 6 * 0), sin (2 * PI / 6 * 0))%R], []).
Proof.
  py_eval. decide_Rlt. reflexivity.
Qed.

(** C6 does not hold as stated: with [scale = 0.25] and
    [rotation = 0], from the point [(0, 0)] and the chosen vertex [(1, 0)]
    the step appends [(0.25, 0)], while contracting the last point toward
    the vertex gives [(0.75, 0)]. *)
Lemma gen_step_not_anchored_at_vertex :
  let s := set_verts (hexagon_session [quarter]) [0; 0; 0] in
  exists s' g',
    gen_step s [0; 0] = Ok (s', g') /\
    verts s' = Some [0; 0; 0] /\
    getitem (vertices s) 0 = Ok (1, 0)%R /\
    getitem (points s) (-1) = Ok (0, 0)%R /\
    points s' = [(0, 0); (1 / 4, 0)]%R /\
    contraction quarter (1, 0)%R (0, 0)%R = (3 / 4, 0)%R /\
    (1 / 4, 0)%R <> contraction quarter (1, 0)%R (0, 0)%R.
Proof.
  intros s.
  assert (Hc : contraction quarter (1, 0)%R (0, 0)%R = (3 / 4, 0)%R).
  { unfold contraction, quarter. simpl. rewrite cos_0, sin_0. points_eq. }
  do 2 eexists. split; [|split; [|split; [|split; [|split; [|split]]]]].
  - exact gen_step_hexagon_quarter.
  - reflexivity.
  - exact hexagon_vertex_0.
  - reflexivity.
  - py_eval. replace (2 * PI / 6 * 0)%R with 0%R by lra.
    rewrite cos_0, sin_0. points_eq.
  - exact Hc.
  - rewrite Hc. intros H. inversion H. lra.
Qed.

(** What a step that returns has done. *)
Lemma gen_step_inv (s s' : ChaosGame) (g g' : rng) :
  gen_step s g = Ok (s', g') ->
  exists vs v g1 V t last,
    verts s = Some vs /\
    choose_vertex s g = Ok (v, g1) /\
    getitem (vertices s) v = Ok V /\
    choose_transform (set_verts s (slice_from vs 1 ++ [v])) (PyTuple V) g1
      = Ok (Some t, g') /\
    getitem (points s) (-1) = Ok last /\
    s' = set_points (set_verts s (slice_from vs 1 ++ [v]))
           (points s ++ [transform t last V]).
Proof.
  intros H. unfold gen_step in H.
  apply mbind_ok_inv in H as (vs & g0 & Hvs & H).
  apply lift_ok_inv in Hvs as [Hvs ->].
  apply mbind_ok_inv in H as (v & g1 & Hv & H).
  apply mbind_ok_inv in H as (vs' & g2 & Hvs' & H).
  apply lift_ok_inv in Hvs' as [Hvs' ->].
  apply mbind_ok_inv in H as (i & g2 & Hi & H).
  apply lift_ok_inv in Hi as [Hi ->].
  apply mbind_ok_inv in H as (V & g2 & HV & H).
  apply lift_ok_inv in HV as [HV ->].
  apply mbind_ok_inv in H as (trans & g2 & Htrans & H).
  apply mbind_ok_inv in H as (method & g3 & Hmethod & H).
  apply lift_ok_inv in Hmethod as [Hmethod ->].
  apply mbind_ok_inv in H as (last & g3 & Hlast & H).
  apply lift_ok_inv in Hlast as [Hlast ->].
  apply mret_ok_inv in H as [-> ->].
  destruct trans as [t|]; [|discriminate].
  simpl in Hmethod. inversion Hmethod; subst method.
  unfold get_verts in Hvs.
  destruct (verts s) as [ws|] eqn:Hws; [|discriminate].
  inversion Hvs; subst ws.
  simpl in Hvs'. inversion Hvs'; subst vs'.
  rewrite getitem_last in Hi. inversion Hi; subst i.
  exists vs, v, g1, V, t, last.
  repeat split; assumption || reflexivity.
Qed.

(** A step returns when its parts do. *)
Lemma gen_step_ok (s : ChaosGame) (g g1 g2 : rng) (vs : list Z) (v : Z)
    (V last : point) (t : Transformation) :
  verts s = Some vs ->
  choose_vertex s g = Ok (v, g1) ->
  getitem (vertices s) v = Ok V ->
  choose_transform (set_verts s (slice_from vs 1 ++ [v])) (PyTuple V) g1
    = Ok (Some t, g2) ->
  getitem (points s) (-1) = Ok last ->
  gen_step s g
  = Ok (set_points (set_verts s (slice_from vs 1 ++ [v]))
          (points s ++ [transform t last V]), g2).
Proof.
  intros Hvs Hv HV Ht Hlast. unfold gen_step.
  rewrite (mbind_ok _ _ g vs g)
    by (apply lift_ok; unfold get_verts; rewrite Hvs; reflexivity).
  rewrite (mbind_ok _ _ g v g1 Hv). cbv zeta.
  rewrite (mbind_ok _ _ g1 (slice_from vs 1 ++ [v]) g1)
    by (apply lift_ok; reflexivity).
  rewrite (mbind_ok _ _ g1 v g1) by (apply lift_ok; apply getitem_last).
  rewrite (mbind_ok _ _ g1 V g1) by (apply lift_ok; exact HV).
  rewrite (mbind_ok _ _ g1 (Some t) g2 Ht).
  rewrite (mbind_ok _ _ g2 (transform t) g2) by (apply lift_ok; reflexivity).
  rewrite (mbind_ok _ _ g2 last g2) by (apply lift_ok; exact Hlast).
  reflexivity.
Qed.

(** C6, amended: a step that returns chose a vertex [v] and a
    transformation [t] and appended
    [last_point + scale * R(rotation) * (vertices[v] - last_point)]: the
    transformation is anchored at the last point and contracts the vertex
    toward it.  [Transformation(scale=0.5, rotation=0)] applied with anchor
    [(1, 0)] to the point [(0, 0)] yields [(0.5, 0)]. *)
Theorem gen_step_new_point :
  (forall (s s' : ChaosGame) (g g' : rng),
      gen_step s g = Ok (s', g') ->
      exists vs v g1 V t last,
        verts s = Some vs /\
        choose_vertex s g = Ok (v, g1) /\
        verts s' = Some (slice_from vs 1 ++ [v]) /\
        getitem (vertices s) v = Ok V /\
        choose_transform (set_verts s (slice_from vs 1 ++ [v])) (PyTuple V) g1
          = Ok (Some t, g') /\
        getitem (points s) (-1) = Ok last /\
        points s' = points s ++ [transform t last V] /\
        transform t last V =
        (fst last +
           (scale t * (fst V - fst last) * cos (rotation t) -
            scale t * (snd V - snd last) * sin (rotation t)),
         snd last +
           (scale t * (fst V - fst last) * sin (rotation t) +
            scale t * (snd V - snd last) * cos (rotation t)))%R) /\
  transform Transformation_default (1, 0)%R (0, 0)%R = (5 / 10, 0)%R.
Proof.
  split.
  - intros s s' g g' H.
    apply gen_step_inv in H
      as (vs & v & g1 & V & t & last & Hvs & Hv & HV & Ht & Hlast & ->).
    exists vs, v, g1, V, t, last.
    repeat split; try assumption; try reflexivity.
    apply transform_contraction.
  - unfold transform, Transformation_default. simpl.
    rewrite cos_0, sin_0. points_eq.
Qed.

Lemma gen_step_new_point_witness :
  let s := set_verts (hexagon_session [quarter]) [0; 0; 0] in
  exists vs v g1 V t last,
    verts s = Some vs /\
    choose_vertex s [0; 0] = Ok (v, g1) /\
    Some [0; 0; 0] = Some (slice_from vs 1 ++ [v]) /\
    getitem (vertices s) v = Ok V /\
    choose_transform (set_verts s (slice_from vs 1 ++ [v])) (PyTuple V) g1
      = Ok (Some t, []) /\
    getitem (points s) (-1) = Ok last /\
    [(0, 0)%R; transform quarter (0, 0)%R
                 (cos (2 * PI / 6 * 0), sin (2 * PI / 6 * 0))%R]
      = points s ++ [transform t last V] /\
    transform t last V =
    (fst last +
       (scale t * (fst V - fst last) * cos (rotation t) -
        scale t * (snd V - snd last) * sin (rotation t)),
     snd last +
       (scale t * (fst V - fst last) * sin (rotation t) +
        scale t * (snd V - snd last) * cos (rotation t)))%R.
Proof.
  intros s.
  exact (proj1 gen_step_new_point s _ [0; 0] [] gen_step_hexagon_quarter).
Defined.

(** ** The weighted choice of a transformation *)

Lemma walk_transformations_some (p : R) (ts : list Transformation)
    (t : Transformation) :
  walk_transformations p ts = Some t ->
  exists i,
    nth_error ts i = Some t /\
    (remaining p ts i < prob t)%R /\
    (forall j tj, (j < i)%nat -> nth_error ts j = Some tj ->
                  (prob tj <= remaining p ts j)%R).
Proof.
  revert p. induction ts as [|t0 ts IH]; intros p H; simpl in H.
  - discriminate.
  - destruct (Rlt_dec p (prob t0)) as [Hlt|Hge].
    + inversion H; subst t0. exists 0%nat. unfold remaining. simpl.
      split; [reflexivity|]. split; [lra|]. intros j tj Hj. lia.
    + apply IH in H as (i & Hi & Hlt & Hbefore).
      exists (S i). unfold remaining in *. simpl.
      split; [exact Hi|]. split; [lra|].
      intros [|j] tj Hj Hn; simpl in *.
      * inversion Hn; subst tj. lra.
      * specialize (Hbefore j tj ltac:(lia) Hn). lra.
Qed.

Lemma walk_transformations_none (p : R) (ts : list Transformation) :
  walk_transformations p ts = None <->
  (forall j tj, nth_error ts j = Some tj -> (prob tj <= remaining p ts j)%R).
Proof.
  revert p. induction ts as [|t0 ts IH]; intros p; simpl.
  - split; [|reflexivity]. intros _ [|j] tj H; discriminate.
  - destruct (Rlt_dec p (prob t0)) as [Hlt|Hge]; split.
    + discriminate.
    + intros H. specialize (H 0%nat t0 eq_refl).
      unfold remaining in H. simpl in H. lra.
    + intros H [|j] tj Hn; unfold remaining; simpl in *.
      * inversion Hn; subst tj. lra.
      * pose proof (proj1 (IH _) H j tj Hn) as H'.
        unfold remaining in H'. lra.
    + intros H. apply (proj2 (IH _)). intros j tj Hn.
      specialize (H (S j) tj Hn). unfold remaining in *. simpl in H. lra.
Qed.

(** C2 does not hold as stated: with the single weight [0.25] and
    the draw [p = 0.5] the loop falls off its end and the chooser returns
    [None]; there is no fallback to the last transformation. *)
Lemma choose_transform_no_fallback :
  let ts := [mkTransformation (5 / 10) 0 (1 / 4)] in
  ts <> [] /\
  (sum_probs ts < 1)%R /\
  exists p,
    random [2 ^ 52] = Ok (p, []) /\
    (0 <= p < 1)%R /\
    choose_transform (hexagon_session ts) (PyTuple (1, 0)%R) [2 ^ 52]
      = Ok (None, []).
Proof.
  intros ts. split; [discriminate|]. split; [unfold ts; simpl; lra|].
  eexists. split; [py_eval; reflexivity|]. split; [lra|].
  unfold ts. py_eval. decide_Rlt. reflexivity.
Qed.

(** C2, amended: for every transform list and every draw [p] in [[0, 1)],
    the weighted-random chooser walks the ordered list subtracting each
    weight from [p] and returns the first transformation whose weight
    exceeds the remaining [p], a member of the list; if [p] is never less
    than a remaining weight it returns [None], no transformation: it has
    no fallback to the last transformation. *)
Theorem choose_transform_weighted (s : ChaosGame) (arg : pyval) (g : rng) :
  klass s <> TargetTransform ->
  exists p,
    random g = Ok (p, tl g) /\
    (0 <= p < 1)%R /\
    choose_transform s arg g
      = Ok (walk_transformations p (transformations s), tl g) /\
    match walk_transformations p (transformations s) with
    | Some t =>
        In t (transformations s) /\
        exists i,
          nth_error (transformations s) i = Some t /\
          (remaining p (transformations s) i < prob t)%R /\
          (forall j tj, (j < i)%nat ->
                        nth_error (transformations s) j = Some tj ->
                        ~ (remaining p (transformations s) j < prob tj)%R)
    | None =>
        forall j tj, nth_error (transformations s) j = Some tj ->
                     ~ (remaining p (transformations s) j < prob tj)%R
    end.
Proof.
  intros Hk. destruct (random_ok g) as (p & Hp & Hrange).
  exists p. split; [exact Hp|]. split; [exact Hrange|].
  split.
  { unfold choose_transform.
    destruct (klass s); try congruence;
      (rewrite (mbind_ok _ _ _ _ _ Hp); reflexivity). }
  destruct (walk_transformations p (transformations s)) as [t|] eqn:Hw.
  - pose proof (walk_transformations_some _ _ _ Hw) as (i & Hi & Hlt & Hbefore).
    split; [eapply nth_error_In; exact Hi|]. exists i.
    split; [exact Hi|]. split; [exact Hlt|].
    intros j tj Hj Hn Hc. specialize (Hbefore j tj Hj Hn). lra.
  - intros j tj Hn Hc.
    pose proof (proj1 (walk_transformations_none _ _) Hw j tj Hn). lra.
Qed.

Lemma choose_transform_weighted_witness :
  exists p,
    random [0] = Ok (p, tl [0]) /\
    (0 <= p < 1)%R /\
    choose_transform (hexagon_session default_transformations)
      (PyTuple (1, 0)%R) [0]
      = Ok (walk_transformations p default_transformations, tl [0]) /\
    match walk_transformations p default_transformations with
    | Some t =>
        In t default_transformations /\
        exists i,
          nth_error default_transformations i = Some t /\
          (remaining p default_transformations i < prob t)%R /\
          (forall j tj, (j < i)%nat ->
                        nth_error default_transformations j = Some tj ->
                        ~ (remaining p default_transformations j < prob tj)%R)
    | None =>
        forall j tj, nth_error default_transformations j = Some tj ->
                     ~ (remaining p default_transformations j < prob tj)%R
    end.
Proof.
  apply (choose_transform_weighted (hexagon_session default_transformations)
           (PyTuple (1, 0)%R) [0]).
  simpl. discriminate.
Defined.

(** ** Construction *)

Lemma quality_presets_known (name : string) :
  In name preset_names -> exists size, quality_presets name = Ok size.
Proof.
  intros [<-|[<-|[<-|[<-|[]]]]]; eexists; reflexivity.
Qed.

Lemma quality_presets_unknown (name : string) :
  ~ In name preset_names -> quality_presets name = Raise KeyError.
Proof.
  intros Hn. unfold quality_presets.
  destruct (String.eqb_spec name "rough") as [->|_];
    [exfalso; apply Hn; simpl; auto|].
  destruct (String.eqb_spec name "low") as [->|_];
    [exfalso; apply Hn; simpl; auto|].
  destruct (String.eqb_spec name "medium") as [->|_];
    [exfalso; apply Hn; simpl; auto|].
  destruct (String.eqb_spec name "fine") as [->|_];
    [exfalso; apply Hn; simpl; auto|].
  reflexivity.
Qed.

(** C5 does not hold as stated: construction with weights that sum
    to [0.5] returns a session; nothing is raised. *)
Lemma init_accepts_weights_half :
  sum_probs weights_half = (5 / 10)%R /\
  exists s,
    ChaosGame_init (Preset "fine") 6 weights_half default_coloring = Ok s /\
    transformations s = weights_half.
Proof.
  split.
  - unfold weights_half. simpl. lra.
  - eexists. split; reflexivity.
Qed.

(** The scatter of the vertices succeeds exactly when there is a
    vertex. *)
Lemma scatter_make_vertices (n : Z) :
  scatter (make_vertices n) [] = if 1 <=? n then Ok tt else Raise TypeError.
Proof.
  unfold make_vertices, range.
  destruct (Z.leb_spec 1 n) as [Hn|Hn].
  - destruct (Z.to_nat n) as [|k] eqn:Hk; [lia|].
    destruct (n mod 2 =? 0); reflexivity.
  - replace (Z.to_nat n) with 0%nat by lia.
    destruct (n mod 2 =? 0); reflexivity.
Qed.

Lemma ChaosGame_init_ok (q : quality) (n : Z) (ts : list Transformation)
    (col : list (list R)) (size : R) :
  match q with Preset name => quality_presets name | Size r => Ok r end
  = Ok size ->
  1 <= n ->
  ChaosGame_init q n ts col
  = Ok (mkChaosGame Base size n ts col (make_vertices n) [(0, 0)%R] [] None
          0 0).
Proof.
  intros Hq Hn. unfold ChaosGame_init. rewrite Hq. simpl.
  rewrite scatter_make_vertices.
  destruct (Z.leb_spec 1 n); [reflexivity | lia].
Qed.

Lemma ChaosGame_init_inv (q : quality) (n : Z) (ts : list Transformation)
    (col : list (list R)) (s : ChaosGame) :
  ChaosGame_init q n ts col = Ok s ->
  1 <= n /\
  exists size,
    match q with Preset name => quality_presets name | Size r => Ok r end
    = Ok size /\
    s = mkChaosGame Base size n ts col (make_vertices n) [(0, 0)%R] [] None
          0 0.
Proof.
  unfold ChaosGame_init. intros H.
  apply rbind_ok_inv in H as (size & Hq & H).
  apply rbind_ok_inv in H as (u & Hsc & H).
  rewrite scatter_make_vertices in Hsc.
  destruct (Z.leb_spec 1 n); [|discriminate].
  split; [assumption|]. exists size. split; [exact Hq|].
  inversion H. reflexivity.
Qed.

(** C5, amended: construction does not look at the weights.  With at
    least one vertex and a point size or a preset name as [quality] it
    returns a session that holds the transformations as given; whether it
    returns does not depend on the transformations; weights summing to
    [0.999999] and to [0.5] are both accepted; the three subclasses
    construct through it. *)
Theorem init_ignores_weights :
  (forall (q : quality) (n : Z) (ts : list Transformation)
          (col : list (list R)),
      1 <= n ->
      match q with
      | Size r =>
          exists s, ChaosGame_init q n ts col = Ok s /\
                    transformations s = ts /\ point_size s = r
      | Preset name =>
          if in_dec string_dec name preset_names
          then exists s, ChaosGame_init q n ts col = Ok s /\
                         transformations s = ts
          else ChaosGame_init q n ts col = Raise KeyError
      end) /\
  (forall (q : quality) (n : Z) (ts ts' : list Transformation)
          (col : list (list R)) (s : ChaosGame),
      ChaosGame_init q n ts col = Ok s ->
      transformations s = ts /\
      exists s', ChaosGame_init q n ts' col = Ok s' /\
                 transformations s' = ts') /\
  (forall (q : quality) (n : Z) (ts : list Transformation)
          (col : list (list R)) (hl : Z) (ex : list nat),
      ChaosGameHistExc_init hl ex q n ts col
        = rbind (ChaosGame_init q n ts col)
            (fun s => Ok (set_subclass s HistExc (excluded_mask ex) hl)) /\
      ChaosGameHistExc2_init ex q n ts col
        = rbind (ChaosGame_init q n ts col)
            (fun s => Ok (set_subclass s HistExc2
                            (if 0 <? Z.of_nat (List.length ex)
                             then excluded_mask ex else 0) 0)) /\
      ChaosGameTargetTransform_init q n ts col
        = rbind (ChaosGame_init q n ts col)
            (fun s => Ok (set_subclass s TargetTransform 0 0))) /\
  sum_probs weights_nearly_one = (999999 / 1000000)%R /\
  sum_probs weights_half = (5 / 10)%R /\
  (exists s1 s2,
      ChaosGame_init (Preset "fine") 6 weights_nearly_one default_coloring
        = Ok s1 /\
      ChaosGame_init (Preset "fine") 6 weights_half default_coloring
        = Ok s2 /\
      transformations s1 = weights_nearly_one /\
      transformations s2 = weights_half).
Proof.
  split; [|split; [|split; [|split; [|split]]]].
  - intros [name|r] n ts col Hn.
    + destruct (in_dec string_dec name preset_names) as [Hin|Hout].
      * destruct (quality_presets_known name Hin) as (size & Hs).
        rewrite (ChaosGame_init_ok (Preset name) n ts col size Hs Hn).
        eexists. split; reflexivity.
      * unfold ChaosGame_init.
        rewrite (quality_presets_unknown name Hout). reflexivity.
    + rewrite (ChaosGame_init_ok (Size r) n ts col r eq_refl Hn).
      eexists. split; [reflexivity|]. split; reflexivity.
  - intros q n ts ts' col s H.
    apply ChaosGame_init_inv in H as (Hn & size & Hq & ->).
    split; [reflexivity|].
    rewrite (ChaosGame_init_ok q n ts' col size Hq Hn).
    eexists. split; reflexivity.
  - intros. repeat split.
  - unfold weights_nearly_one. simpl. lra.
  - unfold weights_half. simpl. lra.
  - do 2 eexists. repeat split.
Qed.

Lemma init_ignores_weights_witness :
  (exists s, ChaosGame_init (Size 1) 6 weights_half default_coloring = Ok s /\
             transformations s = weights_half /\ point_size s = 1%R) /\
  (transformations (hexagon_session weights_half) = weights_half /\
   exists s', ChaosGame_init (Size 1) 6 weights_nearly_one default_coloring
              = Ok s' /\
              transformations s' = weights_nearly_one).
Proof.
  split.
  - apply (proj1 init_ignores_weights (Size 1) 6 weights_half
             default_coloring).
    lia.
  - apply (proj1 (proj2 init_ignores_weights) (Size 1) 6 weights_half
             weights_nearly_one default_coloring
             (hexagon_session weights_half)).
    reflexivity.
Defined.

(** ** The vertex-indexed choice of a transformation *)

Lemma length_make_vertices (n : Z) :
  List.length (make_vertices n) = Z.to_nat n.
Proof.
  unfold make_vertices.
  destruct (n mod 2 =? 0); rewrite length_map; apply length_range.
Qed.

Lemma getitem_in_range {A : Type} (l : list A) (i : Z) :
  0 <= i < Z.of_nat (List.length l) -> exists x, getitem l i = Ok x.
Proof.
  intros Hi.
  destruct (nth_error l (Z.to_nat i)) as [x|] eqn:Hn.
  - exists x. apply getitem_ok_nth; [lia | exact Hn].
  - apply nth_error_None in Hn. lia.
Qed.

(** Given an index, the method of [ChaosGameTargetTransform] returns the
    transformation at that index and draws nothing. *)
Lemma choose_transform_indexed (s : ChaosGame) (v : Z) (g : rng) :
  klass s = TargetTransform ->
  choose_transform s (PyInt v) g
  = lift (rbind (getitem (transformations s) v) (fun t => Ok (Some t))) g.
Proof.
  intros Hk. unfold choose_transform. rewrite Hk. reflexivity.
Qed.

(** [generate_points] hands the method the coordinates of the vertex, not
    its index: the first step of every batch raises [TypeError]. *)
Lemma gen_step_target_transform (s : ChaosGame) (vs : list Z) (g : rng) :
  klass s = TargetTransform ->
  verts s = Some vs ->
  1 <= num_targets s ->
  vertices s = make_vertices (num_targets s) ->
  gen_step s g = Raise TypeError.
Proof.
  intros Hk Hvs HN Hvx. unfold gen_step.
  assert (Hget : get_verts s = Ok vs) by (unfold get_verts; rewrite Hvs; reflexivity).
  rewrite (mbind_ok _ _ g vs g (lift_ok _ g _ Hget)).
  assert (Hcv : choose_vertex s = randint 0 (num_targets s - 1))
    by (unfold choose_vertex; rewrite Hk; reflexivity).
  destruct (randint_ok 0 (num_targets s - 1) g ltac:(lia)) as (v & Hv & Hrange).
  rewrite <- Hcv in Hv.
  rewrite (mbind_ok _ _ g v (tl g) Hv).
  cbv zeta.
  rewrite (mbind_ok _ _ (tl g) (slice_from vs 1 ++ [v]) (tl g))
    by (apply lift_ok; reflexivity).
  rewrite (mbind_ok _ _ (tl g) v (tl g))
    by (apply lift_ok; apply getitem_last).
  destruct (getitem_in_range (make_vertices (num_targets s)) v) as (V & HV).
  { rewrite length_make_vertices. lia. }
  rewrite (mbind_ok _ _ (tl g) V (tl g))
    by (apply lift_ok; simpl; rewrite Hvx; exact HV).
  apply mbind_raise.
  unfold choose_transform. simpl. rewrite Hk. reflexivity.
Qed.

Lemma generate_points_target_transform (n : Z) (s : ChaosGame) (g : rng) :
  klass s = TargetTransform ->
  1 <= num_targets s ->
  vertices s = make_vertices (num_targets s) ->
  0 < n ->
  generate_points n s g = Raise TypeError.
Proof.
  intros Hk HN Hvx Hn. unfold generate_points. cbv zeta.
  apply mbind_raise.
  destruct (Z.to_nat n) as [|k] eqn:Hk'; [lia|].
  simpl. apply mbind_raise.
  apply gen_step_target_transform with (vs := [0; 0; 0]);
    simpl; solve [assumption | reflexivity].
Qed.

(** C3, on the code: with [num_targets = 6] and six transformations the
    method, given the index [2], returns [transformations[2]] and draws
    nothing; but [generate_points] calls it with the vertex coordinates, and
    the first step raises [TypeError] whatever the generator. *)
Theorem target_transform_type_error :
  exists s,
    ChaosGameTargetTransform_init (Size 1) 6 six_transformations
      default_coloring = Ok s /\
    Z.of_nat (List.length (transformations s)) = num_targets s /\
    (forall g : rng,
        choose_transform s (PyInt 2) g
        = Ok (Some (mkTransformation (3 / 10) 0 1), g)) /\
    (forall g : rng, generate_points 1 s g = Raise TypeError).
Proof.
  eexists. split; [reflexivity|]. split; [reflexivity|]. split.
  - intros g. rewrite choose_transform_indexed by reflexivity. reflexivity.
  - intros g. apply generate_points_target_transform; simpl; try reflexivity; lia.
Qed.

(** ** The choice of a vertex under exclusion *)

Lemma in_verts_avail (n exc i : Z) :
  In i (verts_avail n exc) <-> 0 <= i < n /\ Z.land exc (Z.shiftl 1 i) = 0.
Proof.
  unfold verts_avail. rewrite filter_In, in_range, Z.eqb_eq. reflexivity.
Qed.

(** A non-empty list of available vertices yields one of them. *)
Lemma pick_avail_ok (avail : list Z) (g : rng) :
  avail <> [] ->
  exists v, pick_avail avail g = Ok (v, tl g) /\ In v avail.
Proof.
  intros Hne. unfold pick_avail.
  assert (Hlen : (0 < List.length avail)%nat).
  { destruct avail; [congruence | simpl; lia]. }
  destruct (randint_ok 0 (Z.of_nat (List.length avail) - 1) g ltac:(lia))
    as (r & Hr & Hrange).
  destruct (getitem_in_range avail r ltac:(lia)) as (v & Hv).
  exists v. split.
  - rewrite (mbind_ok _ _ _ _ _ Hr). apply lift_ok. exact Hv.
  - eapply getitem_ok_inv. exact Hv.
Qed.

(** With no vertex available [randint(0, -1)] raises. *)
Lemma pick_avail_nil (g : rng) : pick_avail [] g = Raise ValueError.
Proof. reflexivity. Qed.

(** Every available vertex is returned for some generator. *)
Lemma pick_avail_any (avail : list Z) (v : Z) (g : rng) :
  In v avail -> exists r, pick_avail avail (r :: g) = Ok (v, g).
Proof.
  intros Hin. apply In_nth_error in Hin as (k & Hk).
  assert (Hlen : (k < List.length avail)%nat).
  { apply nth_error_Some. rewrite Hk. discriminate. }
  exists (Z.of_nat k - 0). unfold pick_avail.
  rewrite (mbind_ok _ _ _ (Z.of_nat k) g) by (apply randint_any; lia).
  apply lift_ok. apply getitem_ok_nth; [lia|]. rewrite Nat2Z.id. exact Hk.
Qed.

Lemma slice_from_nonempty {A : Type} (l : list A) (k : Z) :
  l <> [] -> 1 <= k -> slice_from l (- k) <> [].
Proof.
  intros Hne Hk. unfold slice_from.
  destruct (Z.ltb_spec (- k) 0); [|lia].
  assert (Hlen : (0 < List.length l)%nat).
  { destruct l; [congruence | simpl; lia]. }
  intros Hnil. apply (f_equal (@List.length A)) in Hnil.
  rewrite length_skipn in Hnil. simpl in Hnil. lia.
Qed.

(** The loop body of [hist_exc_mask] does not depend on the entry it visits:
    over a non-empty slice the loop computes the rotation by the last
    entry. *)
Lemma rfold_lor_const {A : Type} (r : result Z) (l : list A) :
  l <> [] ->
  rfold (fun exc (_ : A) => rbind r (fun rot => Ok (Z.lor exc rot))) l 0 = r.
Proof.
  intros Hne. destruct r as [x|e].
  - assert (Hidem : forall l' : list A,
               rfold (fun exc (_ : A) => rbind (Ok x)
                                           (fun rot => Ok (Z.lor exc rot)))
                     l' x = Ok x).
    { induction l' as [|y l' IH]; simpl; [reflexivity|].
      rewrite Z.lor_diag. exact IH. }
    destruct l as [|y l]; [congruence|]. simpl. apply Hidem.
  - destruct l as [|y l]; [congruence|]. reflexivity.
Qed.

Lemma hist_exc_mask_last (n exc hl : Z) (vs : list Z) :
  vs <> [] -> 1 <= hl ->
  hist_exc_mask n exc hl vs
  = rbind (getitem vs (-1)) (fun last => lcyc n exc last).
Proof.
  intros Hne Hhl. unfold hist_exc_mask.
  rewrite <- (rfold_lor_const (rbind (getitem vs (-1)) (fun last => lcyc n exc last))
                (slice_from vs (- hl)))
    by (apply slice_from_nonempty; assumption).
  f_equal.
  destruct (getitem vs (-1)) as [last|e]; simpl; reflexivity.
Qed.

Lemma choose_vertex_HistExc (s : ChaosGame) (vs : list Z) (g : rng) :
  klass s = HistExc -> verts s = Some vs ->
  choose_vertex s g
  = mbind (lift (hist_exc_mask (num_targets s) (excluded s) (hist_len s) vs))
      (fun exc => pick_avail (verts_avail (num_targets s) exc)) g.
Proof.
  intros Hk Hvs. unfold choose_vertex, get_verts. rewrite Hk, Hvs.
  reflexivity.
Qed.

Lemma choose_vertex_HistExc2 (s : ChaosGame) (vs : list Z) (a b : Z) (g : rng) :
  klass s = HistExc2 -> verts s = Some vs ->
  getitem vs (-1) = Ok a -> getitem vs (-2) = Ok b ->
  choose_vertex s g
  = if a =? b
    then mbind (lift (lcyc (num_targets s) (excluded s) a))
           (fun exc => pick_avail (verts_avail (num_targets s) exc)) g
    else randint 0 (num_targets s - 1) g.
Proof.
  intros Hk Hvs Ha Hb. unfold choose_vertex, get_verts. rewrite Hk, Hvs.
  unfold mbind at 1. simpl. unfold mbind at 1. unfold lift at 1. rewrite Ha.
  unfold mbind at 1. unfold lift at 1. rewrite Hb.
  destruct (a =? b); reflexivity.
Qed.

(** C10: in [ChaosGameHistExc.choose_vertex], for every [hist_len >= 1] and
    every non-empty history, the forbidden mask is
    [lcyc(num_targets, excluded, verts[-1])], computed from the last entry
    alone; the mask and the selector are those of [hist_len = 1]. *)
Theorem hist_len_irrelevant (s : ChaosGame) (vs : list Z) (g : rng) :
  klass s = HistExc ->
  verts s = Some vs ->
  vs <> [] ->
  1 <= hist_len s ->
  hist_exc_mask (num_targets s) (excluded s) (hist_len s) vs
    = rbind (getitem vs (-1))
        (fun last => lcyc (num_targets s) (excluded s) last) /\
  hist_exc_mask (num_targets s) (excluded s) (hist_len s) vs
    = hist_exc_mask (num_targets s) (excluded s) 1 vs /\
  choose_vertex s g = choose_vertex (set_subclass s HistExc (excluded s) 1) g.
Proof.
  intros Hk Hvs Hne Hhl.
  assert (H1 : hist_exc_mask (num_targets s) (excluded s) (hist_len s) vs
               = hist_exc_mask (num_targets s) (excluded s) 1 vs).
  { rewrite !hist_exc_mask_last by (assumption || lia). reflexivity. }
  split; [apply hist_exc_mask_last; assumption|]. split; [exact H1|].
  rewrite (choose_vertex_HistExc s vs g Hk Hvs).
  rewrite (choose_vertex_HistExc (set_subclass s HistExc (excluded s) 1) vs g)
    by (simpl; assumption || reflexivity).
  simpl. rewrite H1. reflexivity.
Qed.

Lemma hist_len_irrelevant_witness :
  let s := hist_exc_session 5 3 [4; 1; 2] in
  hist_exc_mask (num_targets s) (excluded s) (hist_len s) [4; 1; 2]
    = rbind (getitem [4; 1; 2] (-1))
        (fun last => lcyc (num_targets s) (excluded s) last) /\
  hist_exc_mask (num_targets s) (excluded s) (hist_len s) [4; 1; 2]
    = hist_exc_mask (num_targets s) (excluded s) 1 [4; 1; 2] /\
  choose_vertex s [3]
    = choose_vertex (set_subclass s HistExc (excluded s) 1) [3].
Proof.
  intros s.
  apply (hist_len_irrelevant s [4; 1; 2] [3]);
    [reflexivity | reflexivity | discriminate | simpl; lia].
Defined.

Lemma verts_avail_0 (n : Z) : verts_avail n 0 = range n.
Proof.
  unfold verts_avail. apply forallb_filter_id.
  apply forallb_forall. intros i _. reflexivity.
Qed.

(** Drawing among all vertices is [randint(0, num_targets-1)]. *)
Lemma pick_avail_range (n : Z) (g : rng) :
  pick_avail (range n) g = randint 0 (n - 1) g.
Proof.
  destruct (Z_lt_le_dec n 1) as [Hsmall|Hbig].
  - rewrite (randint_empty 0 (n - 1) g) by lia.
    unfold range. replace (Z.to_nat n) with 0%nat by lia. reflexivity.
  - unfold pick_avail. rewrite length_range, Z2Nat.id by lia.
    destruct (randint_ok 0 (n - 1) g ltac:(lia)) as (r & Hr & Hrange).
    rewrite (mbind_ok _ _ _ _ _ Hr), Hr.
    apply lift_ok. apply getitem_ok_nth; [lia|].
    apply nth_error_range. lia.
Qed.

Lemma choose_vertex_pick (s : ChaosGame) (vs : list Z) (exc : Z) (g : rng) :
  verts s = Some vs ->
  forbidden_mask s vs = Ok exc ->
  choose_vertex s g = pick_avail (verts_avail (num_targets s) exc) g.
Proof.
  intros Hvs Hf. unfold forbidden_mask in Hf.
  destruct (klass s) eqn:Hk.
  - inversion Hf; subst exc. rewrite verts_avail_0, pick_avail_range.
    unfold choose_vertex. rewrite Hk. reflexivity.
  - rewrite (choose_vertex_HistExc s vs g Hk Hvs), Hf. reflexivity.
  - apply rbind_ok_inv in Hf as (a & Ha & Hf).
    apply rbind_ok_inv in Hf as (b & Hb & Hf).
    rewrite (choose_vertex_HistExc2 s vs a b g Hk Hvs Ha Hb).
    destruct (a =? b).
    + rewrite Hf. reflexivity.
    + inversion Hf; subst exc. rewrite verts_avail_0, pick_avail_range.
      reflexivity.
  - inversion Hf; subst exc. rewrite verts_avail_0, pick_avail_range.
    unfold choose_vertex. rewrite Hk. reflexivity.
Qed.

(** C4 does not hold as stated: an exclusion set that forbids all
    six vertices is accepted by the constructor, and the first selection
    raises [ValueError] from [randint(0, -1)]. *)
Lemma exclusion_of_all_vertices_raises :
  exists s,
    ChaosGameHistExc_init 1 all_excluded (Size 1) 6 default_transformations
      default_coloring = Ok s /\
    forbidden_mask (set_verts s [0; 0; 0]) [0; 0; 0] = Ok 63 /\
    verts_avail 6 63 = [] /\
    (forall g : rng, choose_vertex (set_verts s [0; 0; 0]) g = Raise ValueError) /\
    (forall g : rng, generate_points 1 s g = Raise ValueError).
Proof.
  eexists. split; [reflexivity|].
  split; [reflexivity|]. split; [reflexivity|].
  split; intros g; reflexivity.
Qed.

(** C4, amended: no constructor checks the exclusion set: with at least
    one vertex, construction returns a session for every exclusion set; a
    set that forbids every vertex is detected only when a vertex is
    selected, by the [ValueError] of [randint(0, -1)]; whenever at least
    one vertex remains available, selection returns one of the available
    vertices. *)
Theorem choose_vertex_available :
  (forall (hl : Z) (ex : list nat) (r : R) (n : Z)
          (ts : list Transformation) (col : list (list R)),
      1 <= n ->
      exists s1 s2,
        ChaosGameHistExc_init hl ex (Size r) n ts col = Ok s1 /\
        excluded s1 = excluded_mask ex /\
        ChaosGameHistExc2_init ex (Size r) n ts col = Ok s2 /\
        excluded s2 = excluded_mask ex) /\
  (forall (s : ChaosGame) (vs : list Z) (exc : Z) (g : rng),
      verts s = Some vs ->
      forbidden_mask s vs = Ok exc ->
      (verts_avail (num_targets s) exc = [] ->
       choose_vertex s g = Raise ValueError) /\
      (verts_avail (num_targets s) exc <> [] ->
       exists v,
         choose_vertex s g = Ok (v, tl g) /\
         In v (verts_avail (num_targets s) exc) /\
         0 <= v < num_targets s /\
         Z.land exc (Z.shiftl 1 v) = 0)).
Proof.
  split.
  - intros hl ex r n ts col Hn.
    unfold ChaosGameHistExc_init, ChaosGameHistExc2_init.
    rewrite (ChaosGame_init_ok (Size r) n ts col r eq_refl Hn).
    do 2 eexists.
    split; [reflexivity|]. split; [reflexivity|].
    split; [reflexivity|]. simpl.
    destruct ex; reflexivity.
  - intros s vs exc g Hvs Hf.
    rewrite (choose_vertex_pick s vs exc g Hvs Hf). split.
    + intros ->. apply pick_avail_nil.
    + intros Hne. destruct (pick_avail_ok _ g Hne) as (v & Hv & Hin).
      exists v. split; [exact Hv|]. split; [exact Hin|].
      apply in_verts_avail. exact Hin.
Qed.

Lemma choose_vertex_available_witness :
  (exists s1 s2,
      ChaosGameHistExc_init 1 all_excluded (Size 1) 6 default_transformations
        default_coloring = Ok s1 /\
      excluded s1 = excluded_mask all_excluded /\
      ChaosGameHistExc2_init all_excluded (Size 1) 6 default_transformations
        default_coloring = Ok s2 /\
      excluded s2 = excluded_mask all_excluded) /\
  (verts_avail (num_targets (hist_exc_session 5 1 [0; 0; 2])) 20 = [] ->
   choose_vertex (hist_exc_session 5 1 [0; 0; 2]) [3] = Raise ValueError) /\
  (verts_avail (num_targets (hist_exc_session 5 1 [0; 0; 2])) 20 <> [] ->
   exists v,
     choose_vertex (hist_exc_session 5 1 [0; 0; 2]) [3] = Ok (v, tl [3]) /\
     In v (verts_avail (num_targets (hist_exc_session 5 1 [0; 0; 2])) 20) /\
     0 <= v < num_targets (hist_exc_session 5 1 [0; 0; 2]) /\
     Z.land 20 (Z.shiftl 1 v) = 0).
Proof.
  split.
  - apply (proj1 choose_vertex_available 1 all_excluded 1%R 6
             default_transformations default_coloring).
    lia.
  - apply (proj2 choose_vertex_available (hist_exc_session 5 1 [0; 0; 2])
             [0; 0; 2] 20 [3]); reflexivity.
Defined.

(** ** Excluding the vertex just visited *)

Lemma lcyc_single_bit (v : Z) :
  0 <= v < 6 -> lcyc 6 (excluded_mask [0%nat]) v = Ok (2 ^ v).
Proof.
  intros Hv.
  assert (Hcases : v = 0 \/ v = 1 \/ v = 2 \/ v = 3 \/ v = 4 \/ v = 5) by lia.
  destruct Hcases as [->|[->|[->|[->|[->| ->]]]]]; reflexivity.
Qed.

Lemma verts_avail_single_bit (v i : Z) :
  0 <= v < 6 ->
  In i (verts_avail 6 (2 ^ v)) <-> 0 <= i < 6 /\ i <> v.
Proof.
  intros Hv. rewrite in_verts_avail.
  assert (Hcases : v = 0 \/ v = 1 \/ v = 2 \/ v = 3 \/ v = 4 \/ v = 5) by lia.
  split.
  - intros [Hi Hland]. split; [exact Hi|]. intros ->.
    destruct Hcases as [->|[->|[->|[->|[->| ->]]]]]; discriminate.
  - intros [Hi Hne]. split; [exact Hi|].
    assert (Hicases : i = 0 \/ i = 1 \/ i = 2 \/ i = 3 \/ i = 4 \/ i = 5) by lia.
    destruct Hcases as [->|[->|[->|[->|[->| ->]]]]];
      destruct Hicases as [->|[->|[->|[->|[->| ->]]]]];
      solve [reflexivity | congruence].
Qed.

(** C8: with [excluded=[0]], [hist_len=1] and [num_targets=6], when the
    last history entry is the vertex [v], the forbidden mask has only bit
    [v] set: the available vertices are the indices in [[0, 6)] other than
    [v], the selector never returns [v], and every other index is returned
    for some generator. *)
Theorem exclusion_of_last_vertex (q : quality) (ts : list Transformation)
    (col : list (list R)) (s0 : ChaosGame) (vs : list Z) (v : Z) :
  ChaosGameHistExc_init 1 [0%nat] q 6 ts col = Ok s0 ->
  getitem vs (-1) = Ok v ->
  0 <= v < 6 ->
  let s := set_verts s0 vs in
  hist_exc_mask (num_targets s) (excluded s) (hist_len s) vs = Ok (2 ^ v) /\
  (forall i, Z.testbit (2 ^ v) i = (i =? v)) /\
  (forall i, In i (verts_avail 6 (2 ^ v)) <-> 0 <= i < 6 /\ i <> v) /\
  (forall g, exists u,
        choose_vertex s g = Ok (u, tl g) /\ u <> v /\ 0 <= u < 6) /\
  (forall u, 0 <= u < 6 -> u <> v ->
             exists g g', choose_vertex s g = Ok (u, g')).
Proof.
  intros Hinit Hlast Hv s.
  unfold ChaosGameHistExc_init in Hinit.
  apply rbind_ok_inv in Hinit as (b & Hb & Hs0).
  unfold ChaosGame_init in Hb.
  apply rbind_ok_inv in Hb as (size & _ & Hb).
  inversion Hb; subst b. inversion Hs0; subst s0. clear Hb Hs0.
  assert (Hne : vs <> []).
  { intros ->. rewrite getitem_nil in Hlast. discriminate. }
  assert (Hmask : hist_exc_mask (num_targets s) (excluded s) (hist_len s) vs
                  = Ok (2 ^ v)).
  { rewrite hist_exc_mask_last by (assumption || (simpl; lia)).
    rewrite Hlast. simpl rbind. apply lcyc_single_bit. exact Hv. }
  assert (Hcv : forall g, choose_vertex s g
                          = pick_avail (verts_avail 6 (2 ^ v)) g).
  { intros g.
    rewrite (choose_vertex_HistExc s vs g eq_refl eq_refl), Hmask.
    reflexivity. }
  split; [exact Hmask|]. split; [|split; [|split]].
  - intros i. destruct (Z.eqb_spec i v) as [->|Hne'].
    + apply Z.pow2_bits_true. lia.
    + apply Z.pow2_bits_false. congruence.
  - intros i. apply verts_avail_single_bit. exact Hv.
  - intros g. rewrite Hcv.
    assert (Havail : verts_avail 6 (2 ^ v) <> []).
    { intros Hnil.
      assert (Hin : In (if v =? 0 then 1 else 0) (verts_avail 6 (2 ^ v))).
      { apply verts_avail_single_bit; [exact Hv|].
        destruct (Z.eqb_spec v 0); lia. }
      rewrite Hnil in Hin. destruct Hin. }
    destruct (pick_avail_ok _ g Havail) as (u & Hu & Hin).
    exists u. split; [exact Hu|].
    apply verts_avail_single_bit in Hin; [|exact Hv]. tauto.
  - intros u Hu Hne'.
    assert (Hin : In u (verts_avail 6 (2 ^ v)))
      by (apply verts_avail_single_bit; tauto).
    destruct (pick_avail_any _ u [] Hin) as (r & Hr).
    exists [r], []. rewrite Hcv. exact Hr.
Qed.

Lemma exclusion_of_last_vertex_witness :
  let s := set_verts
             (set_subclass (hexagon_session default_transformations)
                HistExc (excluded_mask [0%nat]) 1) [2] in
  hist_exc_mask (num_targets s) (excluded s) (hist_len s) [2] = Ok (2 ^ 2) /\
  (forall i, Z.testbit (2 ^ 2) i = (i =? 2)) /\
  (forall i, In i (verts_avail 6 (2 ^ 2)) <-> 0 <= i < 6 /\ i <> 2) /\
  (forall g, exists u,
        choose_vertex s g = Ok (u, tl g) /\ u <> 2 /\ 0 <= u < 6) /\
  (forall u, 0 <= u < 6 -> u <> 2 ->
             exists g g', choose_vertex s g = Ok (u, g')).
Proof.
  apply (exclusion_of_last_vertex (Size 1) default_transformations
           default_coloring _ [2] 2);
    [reflexivity | reflexivity | lia].
Defined.

(** ** Batches of points *)

Lemma scatter_ok_iff (pts : list point) (cs : list (list R)) :
  scatter pts cs = Ok tt <->
  pts <> [] /\ forallb (forallb channel_ok) cs = true.
Proof.
  unfold scatter. destruct pts as [|p pts].
  - split; [discriminate | intros [H _]; congruence].
  - destruct (forallb (forallb channel_ok) cs).
    + split; [intros _; split; [discriminate | reflexivity] | reflexivity].
    + split; [discriminate | intros [_ H]; discriminate].
Qed.

Lemma generate_points_inv (n : Z) (s s1 : ChaosGame) (g g1 : rng) :
  generate_points n s g = Ok (s1, g1) ->
  exists sm cs,
    repeatM (Z.to_nat n) gen_step (reset s) g = Ok (sm, g1) /\
    rmap (color_of (coloring sm)) (points sm) = Ok cs /\
    scatter (points sm) (colors sm ++ cs) = Ok tt /\
    s1 = set_colors sm (colors sm ++ cs).
Proof.
  intros H. unfold generate_points in H. cbv zeta in H.
  apply mbind_ok_inv in H as (sm & g' & Hrun & H).
  apply mbind_ok_inv in H as (cs & g'' & Hcs & H).
  apply lift_ok_inv in Hcs as [Hcs ->].
  apply mbind_ok_inv in H as (u & g'' & Hsc & H).
  apply lift_ok_inv in Hsc as [Hsc ->].
  apply mret_ok_inv in H as [-> ->].
  destruct u.
  exists sm, cs. repeat split; assumption.
Qed.

Lemma generate_points_ok (n : Z) (s sm : ChaosGame) (g g1 : rng)
    (cs : list (list R)) :
  repeatM (Z.to_nat n) gen_step (reset s) g = Ok (sm, g1) ->
  rmap (color_of (coloring sm)) (points sm) = Ok cs ->
  scatter (points sm) (colors sm ++ cs) = Ok tt ->
  generate_points n s g = Ok (set_colors sm (colors sm ++ cs), g1).
Proof.
  intros Hrun Hcs Hsc. unfold generate_points. cbv zeta.
  fold (reset s). rewrite (mbind_ok _ _ _ _ _ Hrun).
  rewrite (mbind_ok _ _ g1 cs g1) by (apply lift_ok; exact Hcs).
  rewrite (mbind_ok _ _ g1 tt g1) by (apply lift_ok; exact Hsc).
  reflexivity.
Qed.

Lemma getitem_slice_last {A : Type} (l : list A) :
  getitem (slice_from l (-1)) (-1) = getitem l (-1).
Proof.
  induction l as [|x l _] using rev_ind.
  - reflexivity.
  - rewrite slice_from_last, getitem_last. apply (getitem_last [] x).
Qed.

Lemma getitem_ok_nonempty {A : Type} (l : list A) (i : Z) (x : A) :
  getitem l i = Ok x -> l <> [].
Proof.
  intros H ->. rewrite getitem_nil in H. discriminate.
Qed.

Lemma randint_inv (a b v : Z) (g g' : rng) :
  randint a b g = Ok (v, g') -> a <= v <= b /\ g' = tl g.
Proof.
  unfold randint. destruct (Z.leb_spec a b) as [Hab|]; [|discriminate].
  intros H. inversion H; subst.
  assert (0 <= hd 0 g mod (b - a + 1) < b - a + 1)
    by (apply Z.mod_pos_bound; lia).
  split; [lia | reflexivity].
Qed.

Lemma pick_avail_inv (avail : list Z) (v : Z) (g g' : rng) :
  pick_avail avail g = Ok (v, g') -> In v avail /\ g' = tl g.
Proof.
  unfold pick_avail. intros H.
  apply mbind_ok_inv in H as (r & g1 & Hr & H).
  apply randint_inv in Hr as [_ ->].
  apply lift_ok_inv in H as [H ->].
  split; [eapply getitem_ok_inv; exact H | reflexivity].
Qed.

(** What a selection that returns has returned and read. *)
Lemma choose_vertex_inv (s : ChaosGame) (g g' : rng) (v : Z) :
  choose_vertex s g = Ok (v, g') ->
  0 <= v < num_targets s /\ g' = tl g.
Proof.
  unfold choose_vertex. intros H.
  destruct (klass s).
  - apply randint_inv in H as [Hv ->]. split; [lia | reflexivity].
  - apply mbind_ok_inv in H as (vs & g1 & Hvs & H).
    apply lift_ok_inv in Hvs as [_ ->].
    apply mbind_ok_inv in H as (exc & g1 & Hexc & H).
    apply lift_ok_inv in Hexc as [_ ->].
    apply pick_avail_inv in H as [Hin ->].
    apply in_verts_avail in Hin. split; [tauto | reflexivity].
  - apply mbind_ok_inv in H as (vs & g1 & Hvs & H).
    apply lift_ok_inv in Hvs as [_ ->].
    apply mbind_ok_inv in H as (a & g1 & Ha & H).
    apply lift_ok_inv in Ha as [_ ->].
    apply mbind_ok_inv in H as (b & g1 & Hb & H).
    apply lift_ok_inv in Hb as [_ ->].
    destruct (a =? b).
    + apply mbind_ok_inv in H as (exc & g1 & Hexc & H).
      apply lift_ok_inv in Hexc as [_ ->].
      apply pick_avail_inv in H as [Hin ->].
      apply in_verts_avail in Hin. split; [tauto | reflexivity].
    + apply randint_inv in H as [Hv ->]. split; [lia | reflexivity].
  - apply randint_inv in H as [Hv ->]. split; [lia | reflexivity].
Qed.

Lemma chained_snoc (ts : list Transformation) (vx : list point)
    (l : list point) (p q : point) :
  chained ts vx (l ++ [p]) ->
  (exists t V, In t ts /\ In V vx /\ q = transform t p V) ->
  chained ts vx ((l ++ [p]) ++ [q]).
Proof.
  intros Hc Hq. induction l as [|x l IH].
  - simpl. split; [exact Hq | exact I].
  - destruct l as [|y l].
    + simpl in *. destruct Hc as [Hxy _]. split; [exact Hxy|].
      split; [exact Hq | exact I].
    + simpl in Hc. destruct Hc as [Hxy Hc].
      simpl. split; [exact Hxy|]. apply IH. exact Hc.
Qed.

(** A transformation chosen for a step is one of the session's, and the
    choice reads one draw. *)
Lemma choose_transform_inv (s : ChaosGame) (V : point) (g g' : rng)
    (t : Transformation) :
  choose_transform s (PyTuple V) g = Ok (Some t, g') ->
  klass s <> TargetTransform /\ In t (transformations s) /\ g' = tl g.
Proof.
  unfold choose_transform. intros H.
  assert (Hw : forall p, walk_transformations p (transformations s) = Some t ->
                         In t (transformations s)).
  { intros p Hp. apply walk_transformations_some in Hp as (i & Hi & _).
    eapply nth_error_In. exact Hi. }
  destruct (klass s); try discriminate;
    (apply mbind_ok_inv in H as (p & g1 & Hp & H);
     unfold random in Hp; inversion Hp; subst;
     apply mret_ok_inv in H as [H ->];
     split; [discriminate|]; split; [|reflexivity];
     eapply Hw; symmetry; exact H).
Qed.

Lemma slice_from_1 {A : Type} (x : A) (l : list A) :
  slice_from (x :: l) 1 = l.
Proof.
  unfold slice_from. simpl List.length.
  change (1 <? 0) with false. cbv iota.
  replace (Z.to_nat (Z.min 1 (Z.of_nat (S (List.length l))))) with 1%nat by lia.
  reflexivity.
Qed.

(** What one step that returns has changed. *)
Lemma gen_step_shape (s s' : ChaosGame) (g g' : rng) :
  gen_step s g = Ok (s', g') ->
  exists vs v q,
    verts s = Some vs /\
    0 <= v < num_targets s /\
    s' = set_points (set_verts s (slice_from vs 1 ++ [v])) (points s ++ [q]) /\
    g' = tl (tl g) /\
    exists l p, points s = l ++ [p] /\
      exists t V, In t (transformations s) /\ In V (vertices s) /\
                  q = transform t p V.
Proof.
  intros H.
  apply gen_step_inv in H
    as (vs & v & g1 & V & t & last & Hvs & Hv & HV & Ht & Hlast & ->).
  apply choose_vertex_inv in Hv as [Hv ->].
  apply choose_transform_inv in Ht as (_ & Hin & ->).
  exists vs, v, (transform t last V).
  split; [exact Hvs|]. split; [exact Hv|]. split; [reflexivity|].
  split; [reflexivity|].
  assert (Hne : points s <> []) by (eapply getitem_ok_nonempty; exact Hlast).
  destruct (exists_last Hne) as (l & p & Hl).
  rewrite Hl, getitem_last in Hlast. inversion Hlast; subst p.
  exists l, last. split; [exact Hl|].
  exists t, V. split; [exact Hin|].
  split; [eapply getitem_ok_inv; exact HV | reflexivity].
Qed.

Lemma skipn_tl2 {A : Type} (k : nat) (l : list A) :
  skipn (S (S k)) l = skipn k (tl (tl l)).
Proof.
  destruct l as [|a [|b l]]; simpl; try reflexivity;
    symmetry; apply skipn_nil.
Qed.

Lemma repeatM_gen_step_shape (n : nat) :
  forall (s s' : ChaosGame) (vs : list Z) (g g' : rng),
    verts s = Some vs ->
    vs <> [] ->
    chained (transformations s) (vertices s) (points s) ->
    repeatM n gen_step s g = Ok (s', g') ->
    settings s' = settings s /\
    colors s' = colors s /\
    g' = skipn (2 * n)%nat g /\
    chained (transformations s) (vertices s) (points s') /\
    exists new chosen,
      points s' = points s ++ new /\
      List.length new = n /\
      List.length chosen = n /\
      Forall (fun v => 0 <= v < num_targets s) chosen /\
      verts s' = Some (skipn n (vs ++ chosen)) /\
      (new <> [] -> points s <> []).
Proof.
  induction n as [|n IH]; intros s s' vs g g' Hvs Hne Hch H.
  - simpl in H. apply mret_ok_inv in H as [-> ->].
    repeat split; try assumption.
    exists [], []. rewrite !app_nil_r. repeat split; auto; congruence.
  - simpl in H. apply mbind_ok_inv in H as (s1 & g1 & Hstep & H).
    apply gen_step_shape in Hstep
      as (vs0 & v & q & Hvs0 & Hv & -> & -> & l & p & Hl & Hq).
    rewrite Hvs in Hvs0. inversion Hvs0; subst vs0. clear Hvs0.
    destruct vs as [|x vs]; [congruence|].
    rewrite slice_from_1 in H.
    apply IH with (vs := vs ++ [v]) in H.
    + destruct H as (Hset & Hcol & Hg & Hch' & new & chosen & Hp & Hlen
                     & Hlenc & Hfor & Hverts & _).
      simpl in Hset, Hcol, Hch', Hp, Hfor.
      split; [exact Hset|]. split; [exact Hcol|].
      split.
      { rewrite Hg. replace (2 * S n)%nat with (S (S (2 * n))) by lia.
        symmetry. apply skipn_tl2. }
      split; [exact Hch'|].
      exists (q :: new), (v :: chosen).
      split; [rewrite Hp, <- app_assoc; reflexivity|].
      split; [simpl; lia|]. split; [simpl; lia|].
      split; [constructor; assumption|].
      split; [rewrite Hverts; simpl; rewrite <- app_assoc; reflexivity|].
      intros _. rewrite Hl. intros Hnil.
      apply app_eq_nil in Hnil as [_ Hnil]. discriminate.
    + reflexivity.
    + intros Hnil. apply app_eq_nil in Hnil as [_ Hnil]. discriminate.
    + simpl. rewrite Hl. apply chained_snoc; [rewrite <- Hl; exact Hch|].
      exact Hq.
Qed.

Lemma rmap_length {A B : Type} (f : A -> result B) (l : list A)
    (ys : list B) :
  rmap f l = Ok ys -> List.length ys = List.length l.
Proof.
  revert ys. induction l as [|x l IH]; intros ys H; simpl in H.
  - inversion H. reflexivity.
  - apply rbind_ok_inv in H as (y & _ & H).
    apply rbind_ok_inv in H as (ys' & Hys & H). inversion H; subst ys.
    simpl. f_equal. apply IH. exact Hys.
Qed.

Lemma chained_short (ts : list Transformation) (vx : list point)
    (l : list point) :
  chained ts vx (slice_from l (-1)).
Proof.
  induction l as [|x l _] using rev_ind.
  - exact I.
  - rewrite slice_from_last. exact I.
Qed.

(** All that a call of [generate_points] that returns has done. *)
Lemma generate_points_shape (n : Z) (s s' : ChaosGame) (g g' : rng) :
  generate_points n s g = Ok (s', g') ->
  settings s' = settings s /\
  g' = skipn (2 * Z.to_nat n)%nat g /\
  chained (transformations s) (vertices s) (points s') /\
  rmap (color_of (coloring s)) (points s') = Ok (colors s') /\
  exists new chosen,
    points s' = slice_from (points s) (-1) ++ new /\
    List.length new = Z.to_nat n /\
    List.length chosen = Z.to_nat n /\
    Forall (fun v => 0 <= v < num_targets s) chosen /\
    verts s' = Some (skipn (Z.to_nat n) ([0; 0; 0] ++ chosen)) /\
    (new <> [] -> points s <> []).
Proof.
  intros H.
  apply generate_points_inv in H as (sm & cs & Hrun & Hcs & _ & ->).
  apply repeatM_gen_step_shape with (vs := [0; 0; 0]) in Hrun;
    [| reflexivity | discriminate | apply chained_short].
  destruct Hrun as (Hset & Hcol & Hg & Hch & new & chosen & Hp & Hlen & Hlenc
                    & Hfor & Hverts & Hnew).
  simpl in Hset, Hcol, Hch, Hp, Hfor.
  assert (Hset' : settings sm = settings s) by exact Hset.
  inversion Hset' as [[Hk Hps Hn Hts Hc Hvx He Hh]].
  simpl. rewrite ?Hk, ?Hps, ?Hn, ?Hts, ?Hc, ?Hvx, ?He, ?Hh.
  split; [exact Hset|]. split; [exact Hg|]. split; [exact Hch|].
  split; [rewrite Hcol; rewrite Hc in Hcs; exact Hcs|].
  exists new, chosen. repeat split; try assumption.
  intros Hn0 Hnil. apply (Hnew Hn0). simpl. rewrite Hnil. reflexivity.
Qed.

(** ** The unit disc and the colours *)

Lemma sin_cos_unit (x : R) : (cos x * cos x + sin x * sin x = 1)%R.
Proof.
  pose proof (sin2_cos2 x) as H. unfold Rsqr in H. lra.
Qed.

Lemma in_make_vertices (n : Z) (V : point) :
  In V (make_vertices n) ->
  (fst V * fst V + snd V * snd V = 1)%R.
Proof.
  unfold make_vertices.
  destruct (n mod 2 =? 0); intros H; apply in_map_iff in H as (i & <- & _);
    simpl; apply sin_cos_unit.
Qed.

(** A plain contraction keeps the unit disc: the image is a convex
    combination of the anchor and the point. *)
Lemma transform_in_unit_disc (t : Transformation) (p V : point) :
  plain_contraction t -> in_unit_disc p -> in_unit_disc V ->
  in_unit_disc (transform t p V).
Proof.
  intros [Hrot Hs] Hp HV. destruct p as [px py], V as [vx vy].
  unfold in_unit_disc, transform in *. simpl in *.
  rewrite Hrot, cos_0, sin_0.
  set (k := scale t) in *.
  replace (k * (vx - px) * 1 - k * (vy - py) * 0 + px)%R
    with ((1 - k) * px + k * vx)%R by ring.
  replace (k * (vx - px) * 0 + k * (vy - py) * 1 + py)%R
    with ((1 - k) * py + k * vy)%R by ring.
  assert (H1 : (0 <= k * (1 - k) * ((px - vx) * (px - vx)))%R).
  { apply Rmult_le_pos; [apply Rmult_le_pos; lra | apply Rle_0_sqr]. }
  assert (H2 : (0 <= k * (1 - k) * ((py - vy) * (py - vy)))%R).
  { apply Rmult_le_pos; [apply Rmult_le_pos; lra | apply Rle_0_sqr]. }
  assert (H3 : (0 <= (1 - k) * (1 - (px * px + py * py)))%R)
    by (apply Rmult_le_pos; lra).
  assert (H4 : (0 <= k * (1 - (vx * vx + vy * vy)))%R)
    by (apply Rmult_le_pos; lra).
  nra.
Qed.

Lemma chained_in_unit_disc (ts : list Transformation) (vx : list point)
    (l : list point) :
  Forall plain_contraction ts ->
  Forall in_unit_disc vx ->
  chained ts vx l ->
  (forall p, hd_error l = Some p -> in_unit_disc p) ->
  Forall in_unit_disc l.
Proof.
  intros Hts Hvx. rewrite Forall_forall in Hts, Hvx.
  induction l as [|x l IH]; intros Hch Hhd; [constructor|].
  assert (Hx : in_unit_disc x) by (apply Hhd; reflexivity).
  constructor; [exact Hx|].
  destruct l as [|y l]; [constructor|].
  destruct Hch as [(t & V & Ht & HV & ->) Hch].
  apply IH; [exact Hch|].
  intros p Hp. simpl in Hp. inversion Hp; subst p.
  apply transform_in_unit_disc; auto.
Qed.

Lemma blend_between (a b c d x y : R) :
  between 0 255 a -> between 0 255 b -> between 0 255 c -> between 0 255 d ->
  (0 <= x <= 1)%R -> (0 <= y <= 1)%R ->
  between 0 (255 / 256)
    (((a * (1 - y) + b * y) * x + (c * (1 - y) + d * y) * (1 - x)) / 256)%R.
Proof.
  unfold between. intros Ha Hb Hc Hd Hx Hy.
  assert (Hu : (0 <= a * (1 - y) + b * y <= 255)%R) by nra.
  assert (Hv : (0 <= c * (1 - y) + d * y <= 255)%R) by nra.
  set (u := (a * (1 - y) + b * y)%R) in *.
  set (v := (c * (1 - y) + d * y)%R) in *.
  assert (Hw : (0 <= u * x + v * (1 - x) <= 255)%R) by nra.
  lra.
Qed.

Lemma corner_between (col : list (list R)) (k i : Z) (c : R) :
  Forall (Forall (between 0 255)) col ->
  corner col k i = Ok c -> between 0 255 c.
Proof.
  intros Hcol H. unfold corner in H.
  apply rbind_ok_inv in H as (row & Hrow & Hc).
  apply getitem_ok_inv in Hrow. apply getitem_ok_inv in Hc.
  rewrite Forall_forall in Hcol. specialize (Hcol row Hrow).
  rewrite Forall_forall in Hcol. apply Hcol. exact Hc.
Qed.

Lemma rmap_forall {A B : Type} (f : A -> result B) (P : B -> Prop)
    (l : list A) (ys : list B) :
  (forall x y, f x = Ok y -> P y) ->
  rmap f l = Ok ys -> Forall P ys.
Proof.
  intros Hf. revert ys. induction l as [|x l IH]; intros ys H; simpl in H.
  - inversion H. constructor.
  - apply rbind_ok_inv in H as (y & Hy & H).
    apply rbind_ok_inv in H as (ys' & Hys & H). inversion H; subst ys.
    constructor; [eapply Hf; exact Hy | apply IH; exact Hys].
Qed.

Lemma color_of_between (col : list (list R)) (pt : point) (c : list R) :
  Forall (Forall (between 0 255)) col ->
  (-1 <= fst pt <= 1)%R -> (-1 <= snd pt <= 1)%R ->
  color_of col pt = Ok c ->
  Forall (between 0 (255 / 256)) c.
Proof.
  intros Hcol Hx Hy H. unfold color_of in H.
  eapply rmap_forall; [|exact H].
  intros i y Hi. simpl in Hi.
  apply rbind_ok_inv in Hi as (c0 & H0 & Hi).
  apply rbind_ok_inv in Hi as (c1 & H1 & Hi).
  apply rbind_ok_inv in Hi as (c2 & H2 & Hi).
  apply rbind_ok_inv in Hi as (c3 & H3 & Hi).
  inversion Hi; subst y.
  apply blend_between;
    try (eapply corner_between; [exact Hcol | eassumption]); lra.
Qed.

Lemma in_unit_disc_square (p : point) :
  in_unit_disc p -> (-1 <= fst p <= 1)%R /\ (-1 <= snd p <= 1)%R.
Proof.
  unfold in_unit_disc. intros H. split; nra.
Qed.

Lemma rmap_forall2 {A B : Type} (f : A -> result B) (P : A -> Prop)
    (Q : B -> Prop) (l : list A) (ys : list B) :
  (forall x y, P x -> f x = Ok y -> Q y) ->
  Forall P l -> rmap f l = Ok ys -> Forall Q ys.
Proof.
  intros Hf HP. revert ys. induction HP as [|x l Hx HP IH];
    intros ys H; simpl in H.
  - inversion H. constructor.
  - apply rbind_ok_inv in H as (y & Hy & H).
    apply rbind_ok_inv in H as (ys' & Hys & H). inversion H; subst ys.
    constructor; [eapply Hf; eassumption | apply IH; exact Hys].
Qed.

(** In the class [ChaosGame] a step reads the configuration, the last point
    and the generator, and nothing else: two objects that agree on these
    take the same step. *)
Lemma gen_step_base_sim (s t s' : ChaosGame) (ws : list Z) (g g' : rng) :
  klass s = Base ->
  config t = config s ->
  verts t = Some ws ->
  getitem (points t) (-1) = getitem (points s) (-1) ->
  gen_step s g = Ok (s', g') ->
  exists vs v p,
    verts s = Some vs /\
    s' = set_points (set_verts s (slice_from vs 1 ++ [v])) (points s ++ [p]) /\
    gen_step t g
    = Ok (set_points (set_verts t (slice_from ws 1 ++ [v])) (points t ++ [p]),
          g').
Proof.
  intros Hk Hcfg Hws Hlast H.
  apply gen_step_inv in H
    as (vs & v & g1 & V & tr & last & Hvs & Hv & HV & Ht & Hl & ->).
  unfold config in Hcfg. inversion Hcfg as [[Hkt Hn Hts Hcol Hvx]].
  exists vs, v, (transform tr last V). split; [exact Hvs|].
  split; [reflexivity|].
  apply gen_step_ok with (g1 := g1).
  - exact Hws.
  - unfold choose_vertex in *. rewrite Hkt, Hk, Hn. rewrite Hk in Hv. exact Hv.
  - rewrite Hvx. exact HV.
  - unfold choose_transform in *. simpl in *. rewrite Hkt, Hk, Hts.
    rewrite Hk in Ht. exact Ht.
  - rewrite Hlast. exact Hl.
Qed.

Lemma repeatM_base_sim (n : nat) :
  forall (s t s' : ChaosGame) (ws : list Z) (g g' : rng),
    klass s = Base ->
    config t = config s ->
    verts t = Some ws ->
    getitem (points t) (-1) = getitem (points s) (-1) ->
    repeatM n gen_step s g = Ok (s', g') ->
    exists new t',
      repeatM n gen_step t g = Ok (t', g') /\
      points s' = points s ++ new /\
      points t' = points t ++ new /\
      List.length new = n /\
      config s' = config s /\ colors s' = colors s /\
      config t' = config t /\ colors t' = colors t.
Proof.
  induction n as [|n IH]; intros s t s' ws g g' Hk Hcfg Hws Hlast H.
  - simpl in H. apply mret_ok_inv in H as [-> ->].
    exists [], t. rewrite !app_nil_r. repeat split; reflexivity.
  - simpl in H. apply mbind_ok_inv in H as (s1 & g1 & Hstep & H).
    destruct (gen_step_base_sim s t s1 ws g g1 Hk Hcfg Hws Hlast Hstep)
      as (vs & v & p & Hvs & -> & Hstep').
    destruct (IH (set_points (set_verts s (slice_from vs 1 ++ [v]))
                    (points s ++ [p]))
                 (set_points (set_verts t (slice_from ws 1 ++ [v]))
                    (points t ++ [p]))
                 s' (slice_from ws 1 ++ [v]) g1 g')
      as (new & t' & Hrun & Hps & Hpt & Hlen & Hc1 & Hcol1 & Hc2 & Hcol2).
    + exact Hk.
    + exact Hcfg.
    + reflexivity.
    + simpl. rewrite !getitem_last. reflexivity.
    + exact H.
    + exists (p :: new), t'.
      split; [simpl; rewrite (mbind_ok _ _ _ _ _ Hstep'); exact Hrun|].
      simpl in Hps, Hpt. rewrite <- app_assoc in Hps, Hpt.
      repeat split; try assumption; simpl; lia.
Qed.

Lemma rmap_app {A B : Type} (f : A -> result B) (l1 l2 : list A)
    (c1 c2 : list B) :
  rmap f l1 = Ok c1 -> rmap f l2 = Ok c2 -> rmap f (l1 ++ l2) = Ok (c1 ++ c2).
Proof.
  revert c1. induction l1 as [|x l1 IH]; intros c1 H1 H2; simpl in *.
  - inversion H1. exact H2.
  - apply rbind_ok_inv in H1 as (y & Hy & H1).
    apply rbind_ok_inv in H1 as (ys & Hys & H1). inversion H1; subst c1.
    rewrite Hy. simpl. rewrite (IH ys Hys H2). reflexivity.
Qed.

Lemma rmap_cons_inv {A B : Type} (f : A -> result B) (x : A) (l : list A)
    (c : list B) :
  rmap f (x :: l) = Ok c -> rmap f l = Ok (tl c).
Proof.
  simpl. intros H.
  apply rbind_ok_inv in H as (y & Hy & H).
  apply rbind_ok_inv in H as (ys & Hys & H). inversion H; subst c.
  exact Hys.
Qed.

(** The history exists once a run of steps has started from one that has
    it. *)
Lemma repeatM_gen_step_verts (n : nat) :
  forall (s s' : ChaosGame) (vs : list Z) (g g' : rng),
    verts s = Some vs ->
    repeatM n gen_step s g = Ok (s', g') ->
    exists vs', verts s' = Some vs'.
Proof.
  induction n as [|n IH]; intros s s' vs g g' Hvs H; simpl in H.
  - apply mret_ok_inv in H as [-> ->]. eauto.
  - apply mbind_ok_inv in H as (s1 & g1 & Hstep & H).
    apply gen_step_inv in Hstep
      as (ws & v & g0 & V & t & last & _ & _ & _ & _ & _ & ->).
    eapply IH; [|exact H]. reflexivity.
Qed.

(** ** The vertices that the steps choose *)

Lemma repeatM_steps (n : nat) :
  forall (s s' : ChaosGame) (g g' : rng),
    repeatM n gen_step s g = Ok (s', g') ->
    exists chosen,
      List.length chosen = n /\ steps_choosing s g chosen s' g'.
Proof.
  induction n as [|n IH]; intros s s' g g' H; simpl in H.
  - apply mret_ok_inv in H as [-> ->].
    exists []. split; [reflexivity | apply steps_done].
  - apply mbind_ok_inv in H as (s1 & g2 & Hstep & H).
    destruct (IH _ _ _ _ H) as (chosen & Hlen & Hsteps).
    pose proof Hstep as Hinv.
    apply gen_step_inv in Hinv
      as (vs & v & g1 & V & t & last & Hvs & Hv & HV & Ht & Hlast & Hs1).
    apply choose_transform_inv in Ht as (_ & Hin & _).
    exists (v :: chosen). split; [simpl; lia|].
    apply (steps_next s s1 s' g g1 g2 g' v V last t chosen Hv HV Hlast Hin
             Hstep); [rewrite Hs1; reflexivity | exact Hsteps].
Qed.

Lemma steps_repeatM (s s' : ChaosGame) (g g' : rng) (chosen : list Z) :
  steps_choosing s g chosen s' g' ->
  repeatM (List.length chosen) gen_step s g = Ok (s', g').
Proof.
  intros H.
  induction H as [s g | s s1 s' g g1 g2 g' v V last t vs Hv HV Hlast Hin
                          Hstep Hp Hsteps IH].
  - reflexivity.
  - simpl. rewrite (mbind_ok _ _ _ _ _ Hstep). exact IH.
Qed.

Lemma steps_app (s s1 s2 : ChaosGame) (g g1 g2 : rng) (c1 c2 : list Z) :
  steps_choosing s g c1 s1 g1 ->
  steps_choosing s1 g1 c2 s2 g2 ->
  steps_choosing s g (c1 ++ c2) s2 g2.
Proof.
  intros H.
  induction H as [s g | s sa s' g ga gb g' v V last t vs Hv HV Hlast Hin
                          Hstep Hp Hsteps IH]; intros H2.
  - exact H2.
  - simpl.
    apply (steps_next s sa s2 g ga gb g2 v V last t (vs ++ c2) Hv HV Hlast
             Hin Hstep Hp).
    apply IH. exact H2.
Qed.

(** The steps leave the number of vertices alone, and choose among
    them. *)
Lemma steps_range (s s' : ChaosGame) (g g' : rng) (chosen : list Z) :
  steps_choosing s g chosen s' g' ->
  num_targets s' = num_targets s /\
  Forall (fun v => 0 <= v < num_targets s) chosen.
Proof.
  intros H.
  induction H as [s g | s s1 s' g g1 g2 g' v V last t vs Hv HV Hlast Hin
                          Hstep Hp Hsteps [IHn IHf]].
  - split; [reflexivity | apply Forall_nil].
  - apply gen_step_inv in Hstep
      as (vs0 & v0 & g10 & V0 & t0 & last0 & _ & _ & _ & _ & _ & Hs1).
    assert (Hn : num_targets s1 = num_targets s) by (rewrite Hs1; reflexivity).
    rewrite Hn in IHn, IHf.
    split; [exact IHn|].
    apply Forall_cons; [|exact IHf].
    apply choose_vertex_inv in Hv as [Hv _]. exact Hv.
Qed.

(** The history after the steps: what it was, followed by the vertices
    chosen, without as many of its first entries. *)
Lemma steps_verts (s s' : ChaosGame) (g g' : rng) (chosen : list Z) :
  steps_choosing s g chosen s' g' ->
  forall vs : list Z,
    verts s = Some vs -> vs <> [] ->
    verts s' = Some (skipn (List.length chosen) (vs ++ chosen)).
Proof.
  intros H.
  induction H as [s g | s s1 s' g g1 g2 g' v V last t c Hv HV Hlast Hin
                          Hstep Hp Hsteps IH]; intros vs Hvs Hne.
  - simpl. rewrite app_nil_r. exact Hvs.
  - apply gen_step_inv in Hstep
      as (vs0 & v0 & g10 & V0 & t0 & last0 & Hvs0 & Hv0 & _ & _ & _ & Hs1).
    rewrite Hv in Hv0. inversion Hv0; subst v0 g10.
    rewrite Hvs in Hvs0. inversion Hvs0; subst vs0.
    destruct vs as [|x vs]; [congruence|].
    rewrite slice_from_1 in Hs1.
    rewrite (IH (vs ++ [v])).
    + simpl. rewrite <- app_assoc. reflexivity.
    + rewrite Hs1. reflexivity.
    + intros Hnil. apply app_eq_nil in Hnil as [_ Hnil]. discriminate.
Qed.

(** In the class [ChaosGame] the steps choose the same vertices from any
    session with the same configuration and the same last point. *)
Lemma steps_base_sim (s s' : ChaosGame) (g g' : rng) (chosen : list Z) :
  steps_choosing s g chosen s' g' ->
  forall (t : ChaosGame) (ws : list Z),
    klass s = Base ->
    config t = config s ->
    verts t = Some ws ->
    getitem (points t) (-1) = getitem (points s) (-1) ->
    exists t', steps_choosing t g chosen t' g'.
Proof.
  intros H.
  induction H as [s g | s s1 s' g g1 g2 g' v V last tr c Hv HV Hlast Hin
                          Hstep Hp Hsteps IH]; intros t ws Hk Hcfg Hws Hl.
  - exists t. apply steps_done.
  - apply gen_step_inv in Hstep
      as (vs0 & v0 & g10 & V0 & t0 & last0 & Hvs0 & Hv0 & HV0 & Ht0 & Hlast0
          & Hs1).
    rewrite Hv in Hv0. inversion Hv0; subst v0 g10. clear Hv0.
    rewrite HV in HV0. inversion HV0; subst V0. clear HV0.
    rewrite Hlast in Hlast0. inversion Hlast0; subst last0. clear Hlast0.
    pose proof Hcfg as Hcfg'.
    unfold config in Hcfg'. inversion Hcfg' as [[Hkt Hn Hts Hcol Hvx]].
    assert (Hvt : choose_vertex t g = Ok (v, g1)).
    { unfold choose_vertex in *. rewrite Hkt, Hk, Hn. rewrite Hk in Hv.
      exact Hv. }
    assert (Htt : choose_transform (set_verts t (slice_from ws 1 ++ [v]))
                    (PyTuple V) g1 = Ok (Some t0, g2)).
    { unfold choose_transform in *. simpl in *. rewrite Hkt, Hk, Hts.
      rewrite Hk in Ht0. exact Ht0. }
    assert (HVt : getitem (vertices t) v = Ok V) by (rewrite Hvx; exact HV).
    assert (Hlt : getitem (points t) (-1) = Ok last)
      by (rewrite Hl; exact Hlast).
    pose proof (gen_step_ok t g g1 g2 ws v V last t0 Hws Hvt HVt Htt Hlt)
      as Hstep'.
    apply choose_transform_inv in Htt as (_ & Hint & _).
    destruct (IH (set_points (set_verts t (slice_from ws 1 ++ [v]))
                    (points t ++ [transform t0 last V]))
                 (slice_from ws 1 ++ [v])) as (t' & Ht').
    + rewrite Hs1. exact Hk.
    + rewrite Hs1. exact Hcfg.
    + reflexivity.
    + rewrite Hs1. simpl. rewrite !getitem_last. reflexivity.
    + exists t'.
      apply (steps_next t _ t' g g1 g2 g' v V last t0 c Hvt HVt Hlt Hint
               Hstep'); [reflexivity | exact Ht'].
Qed.

(** The vertices that a call which returns has chosen, and the history it
    leaves. *)
Lemma generate_points_chooses (n : Z) (s s' : ChaosGame) (g g' : rng) :
  generate_points n s g = Ok (s', g') ->
  exists chosen,
    batch_chooses n s g chosen /\
    Forall (fun v => 0 <= v < num_targets s) chosen /\
    verts s' = Some (skipn (Z.to_nat n) ([0; 0; 0] ++ chosen)).
Proof.
  intros H.
  apply generate_points_inv in H as (sm & cs & Hrun & _ & _ & ->).
  apply repeatM_steps in Hrun as (chosen & Hlen & Hsteps).
  exists chosen. split; [split; [exact Hlen | exists sm, g'; exact Hsteps]|].
  split; [exact (proj2 (steps_range _ _ _ _ _ Hsteps))|].
  simpl. rewrite <- Hlen.
  apply (steps_verts _ _ _ _ _ Hsteps [0; 0; 0]); [reflexivity | discriminate].
Qed.

(** ** Runs on given draws *)

Lemma channel_ok_between (c : R) :
  between 0 (255 / 256) c -> channel_ok c = true.
Proof.
  unfold between, channel_ok. intros [H0 H1].
  destruct (Rle_dec 0 c); [|lra].
  destruct (Rle_dec c 1); [reflexivity | lra].
Qed.

Lemma make_vertices_in_unit_disc (n : Z) :
  Forall in_unit_disc (make_vertices n).
Proof.
  apply Forall_forall. intros V HV. apply in_make_vertices in HV.
  unfold in_unit_disc. lra.
Qed.

Lemma default_transformations_plain :
  Forall plain_contraction default_transformations.
Proof.
  apply Forall_cons; [|apply Forall_nil]. split; simpl; lra.
Qed.

Lemma default_coloring_between :
  Forall (Forall (between 0 255)) default_coloring.
Proof.
  repeat (apply Forall_cons || apply Forall_nil); unfold between; lra.
Qed.

(** A call returns what its steps and its colours give, on a session whose
    points stay in the unit disc: the colours are then channels that the
    plot accepts. *)
Lemma generate_points_eval (n : Z) (s sm : ChaosGame) (g g1 : rng)
    (cs : list (list R)) :
  Forall in_unit_disc (vertices s) ->
  Forall plain_contraction (transformations s) ->
  Forall (Forall (between 0 255)) (coloring s) ->
  Forall in_unit_disc (points s) ->
  points s <> [] ->
  repeatM (Z.to_nat n) gen_step (reset s) g = Ok (sm, g1) ->
  rmap (color_of (coloring sm)) (points sm) = Ok cs ->
  generate_points n s g = Ok (set_colors sm (colors sm ++ cs), g1) /\
  Forall in_unit_disc (points sm).
Proof.
  intros Hvx Hts Hcol Hps Hne Hrun Hcs.
  destruct (repeatM_gen_step_shape _ (reset s) sm [0; 0; 0] g g1 eq_refl
              ltac:(discriminate) (chained_short _ _ _) Hrun)
    as (Hset & Hcolors & _ & Hch & new & chosen & Hp & _).
  simpl in Hset, Hcolors, Hch, Hp.
  assert (Hset' : settings sm = settings s) by exact Hset.
  inversion Hset' as [[Hk Hsz Hn Htr Hc Hv He Hh]].
  destruct (exists_last Hne) as (l0 & x0 & Hl0).
  rewrite Hl0, slice_from_last in Hp. simpl in Hp.
  assert (Hdisc : Forall in_unit_disc (points sm)).
  { apply (chained_in_unit_disc (transformations s) (vertices s));
      [exact Hts | exact Hvx | exact Hch |].
    intros p Hhd. rewrite Hp in Hhd. simpl in Hhd. inversion Hhd; subst p.
    rewrite Hl0 in Hps. apply Forall_app in Hps as [_ Hx0].
    inversion Hx0. assumption. }
  split; [|exact Hdisc].
  apply generate_points_ok; [exact Hrun | exact Hcs |].
  apply scatter_ok_iff. split; [rewrite Hp; discriminate|].
  rewrite Hcolors. simpl.
  assert (Hbetween : Forall (Forall (between 0 (255 / 256))) cs).
  { apply (rmap_forall2 (color_of (coloring sm)) in_unit_disc _ (points sm));
      [|exact Hdisc | exact Hcs].
    intros x y Hx Hy. apply in_unit_disc_square in Hx as [Hx1 Hx2].
    rewrite Hc in Hy.
    apply (color_of_between (coloring s) x y Hcol Hx1 Hx2 Hy). }
  apply forallb_forall. intros c Hin.
  apply forallb_forall. intros x Hx.
  apply channel_ok_between.
  rewrite Forall_forall in Hbetween. specialize (Hbetween c Hin).
  rewrite Forall_forall in Hbetween. apply Hbetween. exact Hx.
Qed.

(** One step of a run on given draws. *)
Ltac one_step := eapply repeatM_step; [py_eval; decide_Rlt; reflexivity|].

(** The premises of [generate_points_eval] on a session with the default
    hexagon, transformations and colours. *)
Ltac default_batch Hdisc :=
  lazymatch goal with
  | |- Forall in_unit_disc (vertices _) =>
      exact (make_vertices_in_unit_disc 6)
  | |- Forall plain_contraction _ => apply default_transformations_plain
  | |- Forall (Forall _) _ => apply default_coloring_between
  | |- Forall in_unit_disc _ => exact Hdisc
  | |- _ <> _ => discriminate
  | |- repeatM ?k _ _ _ = _ =>
      let k' := eval compute in k in
      change k with k'; repeat one_step; reflexivity
  | |- rmap _ _ = _ => py_eval; reflexivity
  | |- _ => idtac
  end.

Lemma origin_in_unit_disc : Forall in_unit_disc [(0, 0)%R].
Proof.
  apply Forall_cons; [unfold in_unit_disc; simpl; lra | apply Forall_nil].
Qed.

(** Two batches of one point on the default hexagon. *)
Lemma hexagon_two_batches :
  exists s1 s2,
    generate_points 1 (hexagon_session default_transformations) [1; 0; 0; 0]
    = Ok (s1, [0; 0]) /\
    generate_points 1 s1 [0; 0] = Ok (s2, []).
Proof.
  edestruct generate_points_eval
    with (n := 1) (s := hexagon_session default_transformations)
         (g := [1; 0; 0; 0]) (g1 := [0; 0]) as [H1 Hd1].
  all: default_batch origin_in_unit_disc.
  match type of H1 with
  | _ = Ok (?s1, _) =>
      edestruct generate_points_eval
        with (n := 1) (s := s1) (g := [0; 0]) (g1 := @nil Z)
        as [H2 Hd2]
  end.
  all: default_batch Hd1.
  eexists. eexists. split; [exact H1 | exact H2].
Qed.

(** A batch of three points on the default hexagon. *)
Lemma hexagon_three_steps :
  exists s3,
    generate_points 3 (hexagon_session default_transformations)
      [1; 0; 2; 0; 3; 0] = Ok (s3, []).
Proof.
  edestruct generate_points_eval
    with (n := 3) (s := hexagon_session default_transformations)
         (g := [1; 0; 2; 0; 3; 0]) (g1 := @nil Z) as [H3 Hd3].
  all: default_batch origin_in_unit_disc.
  eexists. exact H3.
Qed.

(** ** Two batches and a single one *)

(** C1, amended: every call starts the selection history again at
    [[0, 0, 0]]: after [generate_points(m)] and then [generate_points(n)]
    the history is the last three entries of [[0, 0, 0]] followed by the
    vertices that the second call chose, whatever the first call chose.
    In the class [ChaosGame], whose selection does not read the history,
    the two calls draw as a single [generate_points(m+n)] does, and the
    single call chooses the vertices of the first call followed by those
    of the second.  Each call replaces [self.points] by the last point
    followed by its new points and [self.colors] by their colours, so that
    the points (colours) of the single call are those of the first batch
    followed by those of the second batch without its first entry, which
    repeats the last point of the first batch. *)
Theorem generate_points_batches (s s1 s2 : ChaosGame) (m n : Z)
    (g g1 g2 : rng) :
  generate_points m s g = Ok (s1, g1) ->
  generate_points n s1 g1 = Ok (s2, g2) ->
  exists chosen1 chosen2,
    batch_chooses m s g chosen1 /\
    batch_chooses n s1 g1 chosen2 /\
    verts s1 = Some (skipn (Z.to_nat m) ([0; 0; 0] ++ chosen1)) /\
    verts s2 = Some (skipn (Z.to_nat n) ([0; 0; 0] ++ chosen2)) /\
    (klass s = Base ->
     points s <> [] ->
     0 <= m ->
     0 <= n ->
     exists s3,
       generate_points (m + n) s g = Ok (s3, g2) /\
       batch_chooses (m + n) s g (chosen1 ++ chosen2) /\
       verts s3
       = Some (skipn (Z.to_nat (m + n)) ([0; 0; 0] ++ chosen1 ++ chosen2)) /\
       points s3 = points s1 ++ tl (points s2) /\
       colors s3 = colors s1 ++ tl (colors s2) /\
       getitem (points s2) 0 = getitem (points s1) (-1) /\
       List.length (points s1) = S (Z.to_nat m) /\
       List.length (points s2) = S (Z.to_nat n) /\
       List.length (points s3) = S (Z.to_nat (m + n))).
Proof.
  intros H1 H2.
  apply generate_points_inv in H1 as (sm & cs1 & Hrun1 & Hcs1 & Hsc1 & ->).
  apply generate_points_inv in H2 as (sn & cs2 & Hrun2 & Hcs2 & Hsc2 & ->).
  destruct (repeatM_steps _ _ _ _ _ Hrun1) as (chosen1 & Hlen1c & Hst1).
  destruct (repeatM_steps _ _ _ _ _ Hrun2) as (chosen2 & Hlen2c & Hst2).
  exists chosen1, chosen2.
  split; [split; [exact Hlen1c | exists sm, g1; exact Hst1]|].
  split; [split; [exact Hlen2c | exists sn, g2; exact Hst2]|].
  split.
  { simpl. rewrite <- Hlen1c.
    apply (steps_verts _ _ _ _ _ Hst1 [0; 0; 0]); [reflexivity | discriminate]. }
  split.
  { simpl. rewrite <- Hlen2c.
    apply (steps_verts _ _ _ _ _ Hst2 [0; 0; 0]); [reflexivity | discriminate]. }
  intros Hk Hne Hm Hn.
  destruct (exists_last Hne) as (l0 & x0 & Hl0).
  (* the first batch *)
  destruct (repeatM_base_sim _ (reset s) (reset s) sm [0; 0; 0] g g1
              Hk eq_refl eq_refl eq_refl Hrun1)
    as (new1 & sm' & _ & Hpm & _ & Hlen1 & Hcfgm & Hcolm & _).
  simpl in Hpm, Hcolm. rewrite Hl0, slice_from_last in Hpm.
  destruct (repeatM_gen_step_verts _ (reset s) sm [0; 0; 0] g g1 eq_refl Hrun1)
    as (wm & Hwm).
  assert (Hcfgm' : config sm = config s) by exact Hcfgm.
  inversion Hcfgm' as [[Hkm Hnm Htm Hcm Hvm]].
  (* the second batch, and the same steps taken from [sm] *)
  assert (Hnem : points sm <> []) by (rewrite Hpm; discriminate).
  destruct (exists_last Hnem) as (lm & lastm & Hpm').
  assert (Hk1 : klass (reset (set_colors sm (colors sm ++ cs1))) = Base).
  { simpl. rewrite Hkm. exact Hk. }
  assert (Hlast1 : getitem (points sm) (-1)
                   = getitem (points (reset (set_colors sm (colors sm ++ cs1))))
                       (-1)).
  { simpl. symmetry. apply getitem_slice_last. }
  destruct (repeatM_base_sim (Z.to_nat n)
              (reset (set_colors sm (colors sm ++ cs1))) sm sn wm g1 g2
              Hk1 eq_refl Hwm Hlast1 Hrun2) as
    (new2 & t' & Hrun3 & Hpn & Hpt & Hlen2 & Hcfgn & Hcoln & Hcfgt & Hcolt).
  simpl in Hpn, Hcoln. rewrite Hpm', slice_from_last in Hpn.
  assert (Hcfgn' : config sn = config sm) by exact Hcfgn.
  inversion Hcfgn' as [[Hkn Hnn Htn Hcn Hvn]].
  inversion Hcfgt as [[Hkt Hnt Htt Hct Hvt]].
  (* the vertices of the second batch, chosen from [sm] *)
  assert (Hst3 : steps_choosing sm g1 chosen2 t' g2).
  { destruct (steps_base_sim _ _ _ _ _ Hst2 sm wm Hk1 eq_refl Hwm Hlast1)
      as (t'' & Ht'').
    pose proof (steps_repeatM _ _ _ _ _ Ht'') as Hr.
    rewrite Hlen2c, Hrun3 in Hr. inversion Hr; subst t''. exact Ht''. }
  pose proof (steps_app _ _ _ _ _ _ _ _ Hst1 Hst3) as Hst.
  (* the single call *)
  assert (Hrun : repeatM (Z.to_nat (m + n)) gen_step (reset s) g
                 = Ok (t', g2)).
  { rewrite Z2Nat.inj_add by assumption. rewrite repeatM_add.
    rewrite (mbind_ok _ _ _ _ _ Hrun1). exact Hrun3. }
  assert (Hcs : rmap (color_of (coloring t')) (points t')
                = Ok (cs1 ++ tl cs2)).
  { rewrite Hct, Hpt. apply rmap_app; [exact Hcs1|].
    rewrite Hcn, Hpn in Hcs2. apply rmap_cons_inv in Hcs2. exact Hcs2. }
  assert (Hsc : scatter (points t') (colors t' ++ cs1 ++ tl cs2) = Ok tt).
  { apply scatter_ok_iff in Hsc1 as [_ Hf1].
    apply scatter_ok_iff in Hsc2 as [_ Hf2].
    apply scatter_ok_iff. split.
    - rewrite Hpt. intros Hnil. apply app_eq_nil in Hnil as [Hnil _].
      exact (Hnem Hnil).
    - rewrite Hcolt, Hcolm. rewrite Hcolm in Hf1. rewrite Hcoln in Hf2.
      simpl in Hf1, Hf2. simpl.
      rewrite forallb_app, Hf1. simpl.
      destruct cs2 as [|c cs2]; [reflexivity|].
      simpl in Hf2. apply andb_prop in Hf2 as [_ Hf2]. exact Hf2. }
  assert (Hlen : List.length (chosen1 ++ chosen2) = Z.to_nat (m + n)).
  { rewrite length_app, Hlen1c, Hlen2c, Z2Nat.inj_add by assumption.
    reflexivity. }
  eexists. split; [apply (generate_points_ok _ _ _ _ _ _ Hrun Hcs Hsc)|].
  split; [split; [exact Hlen | exists t', g2; exact Hst]|].
  split.
  { simpl. rewrite <- Hlen.
    apply (steps_verts _ _ _ _ _ Hst [0; 0; 0]); [reflexivity | discriminate]. }
  simpl. rewrite Hcolt, Hcolm, Hcoln, Hpt, Hpn. simpl.
  split; [reflexivity|]. split; [reflexivity|].
  split.
  { rewrite Hpm'. rewrite getitem_last. reflexivity. }
  rewrite Hpm, !length_app, Hlen1, Hlen2. simpl.
  rewrite Z2Nat.inj_add by assumption.
  repeat split; lia.
Qed.

Lemma generate_points_batches_witness :
  exists s1 s2 s3 chosen1 chosen2,
    generate_points 1 (hexagon_session default_transformations) [1; 0; 0; 0]
    = Ok (s1, [0; 0]) /\
    generate_points 1 s1 [0; 0] = Ok (s2, []) /\
    batch_chooses 1 (hexagon_session default_transformations) [1; 0; 0; 0]
      chosen1 /\
    batch_chooses 1 s1 [0; 0] chosen2 /\
    verts s1 = Some (skipn (Z.to_nat 1) ([0; 0; 0] ++ chosen1)) /\
    verts s2 = Some (skipn (Z.to_nat 1) ([0; 0; 0] ++ chosen2)) /\
    generate_points (1 + 1) (hexagon_session default_transformations)
      [1; 0; 0; 0] = Ok (s3, []) /\
    batch_chooses (1 + 1) (hexagon_session default_transformations)
      [1; 0; 0; 0] (chosen1 ++ chosen2) /\
    verts s3
    = Some (skipn (Z.to_nat (1 + 1)) ([0; 0; 0] ++ chosen1 ++ chosen2)) /\
    points s3 = points s1 ++ tl (points s2) /\
    colors s3 = colors s1 ++ tl (colors s2) /\
    getitem (points s2) 0 = getitem (points s1) (-1) /\
    List.length (points s1) = S (Z.to_nat 1) /\
    List.length (points s2) = S (Z.to_nat 1) /\
    List.length (points s3) = S (Z.to_nat (1 + 1)).
Proof.
  destruct hexagon_two_batches as (s1 & s2 & H1 & H2).
  destruct (generate_points_batches
              (hexagon_session default_transformations) s1 s2 1 1
              [1; 0; 0; 0] [0; 0] [] H1 H2)
    as (c1 & c2 & Hb1 & Hb2 & Hv1 & Hv2 & H3).
  destruct (H3 eq_refl ltac:(discriminate) ltac:(lia) ltac:(lia))
    as (s3 & H3').
  exists s1, s2, s3, c1, c2.
  split; [exact H1|]. split; [exact H2|].
  split; [exact Hb1|]. split; [exact Hb2|].
  split; [exact Hv1|]. split; [exact Hv2|]. exact H3'.
Defined.

Lemma no_repeat_session_init :
  ChaosGameHistExc_init 1 [0%nat] (Size 1) 6 default_transformations
    default_coloring = Ok no_repeat_session.
Proof. reflexivity. Qed.

Lemma sin_third_pos : (0 < sin (2 * PI / 6 * 1))%R.
Proof.
  pose proof PI_RGT_0. apply sin_gt_0; lra.
Qed.

(** C1 does not hold as stated: after [generate_points(1)] twice the
    object holds two points and two colours where a single
    [generate_points(2)] leaves three, the second batch starts with the
    last point of the first, and, the history being reset to [[0, 0, 0]],
    the second batch chooses vertex [1] again where the single call, with
    the same draws, chooses vertex [0], so that the last points differ. *)
Lemma generate_points_batches_differ :
  exists s1 s2 s3,
    generate_points 1 no_repeat_session [0; 0; 0; 0] = Ok (s1, [0; 0]) /\
    generate_points 1 s1 [0; 0] = Ok (s2, []) /\
    generate_points 2 no_repeat_session [0; 0; 0; 0] = Ok (s3, []) /\
    points s2 <> points s3 /\
    colors s2 <> colors s3 /\
    points s1 ++ points s2 <> points s3 /\
    points s1 ++ tl (points s2) <> points s3 /\
    verts s1 = Some [0; 0; 1] /\
    verts s2 = Some [0; 0; 1] /\
    verts s3 = Some [0; 1; 0].
Proof.
  edestruct generate_points_eval
    with (n := 1) (s := no_repeat_session)
         (g := [0; 0; 0; 0]) (g1 := [0; 0]) as [H1 Hd1].
  all: default_batch origin_in_unit_disc.
  match type of H1 with
  | _ = Ok (?s1, _) =>
      edestruct generate_points_eval
        with (n := 1) (s := s1) (g := [0; 0]) (g1 := @nil Z)
        as [H2 Hd2]
  end.
  all: default_batch Hd1.
  edestruct generate_points_eval
    with (n := 2) (s := no_repeat_session)
         (g := [0; 0; 0; 0]) (g1 := @nil Z) as [H3 Hd3].
  all: default_batch origin_in_unit_disc.
  eexists. eexists. eexists.
  split; [exact H1|]. split; [exact H2|]. split; [exact H3|].
  split; [simpl; intros H; apply (f_equal (@List.length _)) in H;
          discriminate|].
  split; [simpl; intros H; apply (f_equal (@List.length _)) in H;
          discriminate|].
  split; [simpl; intros H; apply (f_equal (@List.length _)) in H;
          discriminate|].
  split; [|repeat split].
  py_eval. intros H. pose proof sin_third_pos as Hs.
  injection H as _ Hy.
  replace (2 * PI / 6 * 0)%R with 0%R in Hy by lra.
  rewrite sin_0, cos_0 in Hy. lra.
Qed.

(** * Further properties of the code *)

(** ** [lcyc]: errors, composition, round trip *)

(** X1: [lcyc] raises [ValueError] exactly when a shift count is negative,
    that is when [k < 0] or [k > N]; otherwise it returns the masked
    combination of the two shifts. *)
Theorem lcyc_raises_iff (N n k : Z) :
  lcyc N n k =
  if (k <? 0) || (N <? k)
  then Raise ValueError
  else Ok (Z.land (Z.lor (Z.shiftr n (N - k)) (Z.shiftl n k))
             (Z.shiftl 1 N - 1)).
Proof.
  unfold lcyc, py_shiftr, py_shiftl.
  destruct (Z.ltb_spec k 0), (Z.ltb_spec N k), (Z.ltb_spec (N - k) 0),
    (Z.ltb_spec N 0); simpl; try reflexivity; lia.
Qed.

Lemma lcyc_val_range (N n k : Z) :
  0 <= N -> 0 <= k <= N -> 0 <= lcyc_val N n k < 2 ^ N.
Proof.
  intros HN Hk.
  assert (Hpos : 0 < 2 ^ N) by (apply Z.pow_pos_nonneg; lia).
  assert (Hnn : 0 <= lcyc_val N n k).
  { unfold lcyc_val. apply Z.land_nonneg. right. rewrite Z.shiftl_1_l. lia. }
  split; [exact Hnn|].
  destruct (Z.eq_dec (lcyc_val N n k) 0) as [->|Hnz]; [exact Hpos|].
  apply Z.log2_lt_pow2; [lia|].
  destruct (Z_lt_le_dec (Z.log2 (lcyc_val N n k)) N) as [|Hle]; [assumption|].
  assert (Hbit : Z.testbit (lcyc_val N n k) (Z.log2 (lcyc_val N n k)) = true)
    by (apply Z.bit_log2; lia).
  rewrite lcyc_val_testbit in Hbit by (try apply Z.log2_nonneg; lia).
  destruct (Z.ltb_spec (Z.log2 (lcyc_val N n k)) N); [lia|].
  rewrite andb_false_r in Hbit. discriminate.
Qed.

(** Bit [j] of the rotation is bit [j - k], modulo [N], of the mask. *)
Lemma lcyc_val_bit (N n k j : Z) :
  1 <= N -> 0 <= n < 2 ^ N -> 0 <= k <= N -> 0 <= j < N ->
  Z.testbit (lcyc_val N n k) j = Z.testbit n ((j - k) mod N).
Proof.
  intros HN Hn Hk Hj.
  rewrite lcyc_val_testbit by lia.
  destruct (Z.ltb_spec j N); [|lia]. rewrite andb_true_r.
  destruct (Z_lt_le_dec j k) as [Hlt|Hge].
  - rewrite (Z.testbit_neg_r n (j - k)) by lia. rewrite orb_false_r.
    f_equal. apply Z.mod_unique with (q := -1); lia.
  - destruct (Z.eq_dec k 0) as [->|Hk0].
    + rewrite (testbit_high N n (j + (N - 0))) by lia. simpl.
      f_equal. rewrite Z.mod_small; lia.
    + rewrite (testbit_high N n (j + (N - k))) by lia. simpl.
      f_equal. rewrite Z.mod_small; lia.
Qed.

(** X2: on [N]-bit masks two rotations compose into one: rotating by [k]
    and then by [j] is rotating by [(k + j) mod N]. *)
Theorem lcyc_compose (N n k j : Z) :
  1 <= N -> 0 <= n < 2 ^ N -> 0 <= k <= N -> 0 <= j <= N ->
  rbind (lcyc N n k) (fun r => lcyc N r j) = lcyc N n ((k + j) mod N).
Proof.
  intros HN Hn Hk Hj.
  assert (Hm : 0 <= (k + j) mod N < N) by (apply Z.mod_pos_bound; lia).
  rewrite (lcyc_ok N n k) by lia. simpl.
  rewrite (lcyc_ok N _ j) by lia.
  rewrite (lcyc_ok N n ((k + j) mod N)) by lia.
  f_equal. apply Z.bits_inj'. intros i Hi.
  pose proof (lcyc_val_range N n k ltac:(lia) Hk) as Hr.
  destruct (Z_lt_le_dec i N) as [Hlt|Hge].
  - rewrite (lcyc_val_bit N (lcyc_val N n k) j i) by lia.
    assert (Hi' : 0 <= (i - j) mod N < N) by (apply Z.mod_pos_bound; lia).
    rewrite (lcyc_val_bit N n k ((i - j) mod N)) by lia.
    rewrite (lcyc_val_bit N n ((k + j) mod N) i) by lia.
    f_equal.
    rewrite Zminus_mod_idemp_l, Zminus_mod_idemp_r.
    f_equal. lia.
  - rewrite !lcyc_val_testbit by lia.
    destruct (Z.ltb_spec i N); [lia|]. rewrite !andb_false_r. reflexivity.
Qed.

Lemma lcyc_compose_witness :
  rbind (lcyc 6 5 4) (fun r => lcyc 6 r 5) = lcyc 6 5 ((4 + 5) mod 6).
Proof.
  apply (lcyc_compose 6 5 4 5); lia.
Defined.

(** X3: rotating an [N]-bit mask by [k] and then by [N - k] gives the mask
    back; rotations by [0] and by [N] leave it unchanged. *)
Theorem lcyc_round_trip (N n k : Z) :
  1 <= N -> 0 <= n < 2 ^ N -> 0 <= k <= N ->
  rbind (lcyc N n k) (fun r => lcyc N r (N - k)) = Ok n /\
  lcyc N n 0 = Ok n /\
  lcyc N n N = Ok n.
Proof.
  intros HN Hn Hk.
  assert (Hid : forall k0, k0 = 0 \/ k0 = N -> lcyc N n k0 = Ok n).
  { intros k0 Hk0. rewrite lcyc_ok by lia. f_equal.
    apply Z.bits_inj'. intros i Hi.
    destruct (Z_lt_le_dec i N) as [Hlt|Hge].
    - rewrite lcyc_val_bit by lia. f_equal.
      destruct Hk0 as [->| ->].
      + rewrite Z.sub_0_r. apply Z.mod_small. lia.
      + symmetry. apply Z.mod_unique with (q := -1); lia.
    - rewrite lcyc_val_testbit by lia.
      destruct (Z.ltb_spec i N); [lia|]. rewrite andb_false_r.
      symmetry. apply (testbit_high N); lia. }
  split; [|split; apply Hid; auto].
  rewrite (lcyc_ok N n k) by lia. simpl.
  rewrite (lcyc_ok N _ (N - k)) by lia. f_equal.
  pose proof (lcyc_val_range N n k ltac:(lia) Hk) as Hr.
  apply Z.bits_inj'. intros i Hi.
  destruct (Z_lt_le_dec i N) as [Hlt|Hge].
  - rewrite (lcyc_val_bit N (lcyc_val N n k) (N - k) i) by lia.
    assert (Hi' : 0 <= (i - (N - k)) mod N < N)
      by (apply Z.mod_pos_bound; lia).
    rewrite (lcyc_val_bit N n k _) by lia. f_equal.
    rewrite Zminus_mod_idemp_l.
    symmetry. apply Z.mod_unique with (q := -1); lia.
  - rewrite lcyc_val_testbit by lia.
    destruct (Z.ltb_spec i N); [lia|]. rewrite andb_false_r.
    symmetry. apply (testbit_high N); lia.
Qed.

Lemma lcyc_round_trip_witness :
  rbind (lcyc 6 5 2) (fun r => lcyc 6 r (6 - 2)) = Ok 5 /\
  lcyc 6 5 0 = Ok 5 /\
  lcyc 6 5 6 = Ok 5.
Proof.
  apply (lcyc_round_trip 6 5 2); lia.
Defined.

(** ** The exclusion mask of a list of offsets *)

Lemma land_pow2_zero (a i : Z) :
  0 <= i -> (Z.land a (2 ^ i) = 0 <-> Z.testbit a i = false).
Proof.
  intros Hi. split.
  - intros H. apply (f_equal (fun z => Z.testbit z i)) in H.
    rewrite Z.land_spec, Z.pow2_bits_true, Z.bits_0, andb_true_r in H by lia.
    exact H.
  - intros H. apply Z.bits_inj'. intros j Hj.
    rewrite Z.land_spec, Z.bits_0, Z.pow2_bits_eqb by lia.
    destruct (Z.eqb_spec i j) as [<-|_].
    + rewrite H. reflexivity.
    + apply andb_false_r.
Qed.

Lemma excluded_mask_acc (l : list nat) :
  forall acc : Z,
    NoDup l ->
    (forall x, In x l -> Z.testbit acc (Z.of_nat x) = false) ->
    forall j, 0 <= j ->
      Z.testbit (fold_left (fun a i => a + 2 ^ Z.of_nat i) l acc) j
      = Z.testbit acc j || existsb (fun x => Z.of_nat x =? j) l.
Proof.
  induction l as [|x l IH]; intros acc Hnd Hacc j Hj; simpl.
  - rewrite orb_false_r. reflexivity.
  - inversion Hnd as [|x' l' Hnotin Hnd']; subst.
    assert (Hx : Z.testbit acc (Z.of_nat x) = false)
      by (apply Hacc; left; reflexivity).
    assert (Hadd : acc + 2 ^ Z.of_nat x = Z.lxor acc (2 ^ Z.of_nat x)).
    { apply Z.add_nocarry_lxor. apply land_pow2_zero; [lia | exact Hx]. }
    rewrite IH; [| exact Hnd' | | exact Hj].
    + rewrite Hadd, Z.lxor_spec, Z.pow2_bits_eqb by lia.
      destruct (Z.eqb_spec (Z.of_nat x) j) as [<-|_].
      * rewrite Hx. reflexivity.
      * rewrite xorb_false_r. reflexivity.
    + intros y Hy.
      rewrite Hadd, Z.lxor_spec, Z.pow2_bits_eqb by lia.
      rewrite (Hacc y (or_intror Hy)).
      destruct (Z.eqb_spec (Z.of_nat x) (Z.of_nat y)) as [Heq|_];
        [|reflexivity].
      apply Nat2Z.inj in Heq. subst y. contradiction.
Qed.

(** X4: for a list of offsets without duplicates, bit [i] of the mask
    [sum(2**i for i in excluded)] is set exactly when [i] is in the list.
    A duplicate carries into the next bit: the default argument
    [[0,0,0,0,0,0]] of [ChaosGameHistExc] gives the mask [6], which
    excludes the offsets [1] and [2] and not the offset [0]. *)
Theorem excluded_mask_bits :
  (forall (l : list nat) (i : nat),
      NoDup l ->
      (Z.testbit (excluded_mask l) (Z.of_nat i) = true <-> In i l)) /\
  excluded_mask [0; 0; 0; 0; 0; 0]%nat = 6 /\
  excluded_mask [1; 2]%nat = 6.
Proof.
  split; [|split; reflexivity].
  intros l i Hnd. unfold excluded_mask.
  rewrite (excluded_mask_acc l 0 Hnd) by (intros; apply Z.bits_0) || lia.
  rewrite Z.bits_0. simpl. rewrite existsb_exists. split.
  - intros (x & Hin & Hx). apply Z.eqb_eq in Hx.
    apply Nat2Z.inj in Hx. subst x. exact Hin.
  - intros Hin. exists i. split; [exact Hin | apply Z.eqb_refl].
Qed.

Lemma excluded_mask_bits_witness :
  Z.testbit (excluded_mask [1; 3; 5]%nat) (Z.of_nat 3) = true
  <-> In 3%nat [1; 3; 5]%nat.
Proof.
  apply (proj1 excluded_mask_bits [1; 3; 5]%nat 3%nat).
  repeat constructor; simpl; intuition discriminate.
Defined.

(** ** The range of the chosen vertex *)

(** X5: in every class, a vertex that [choose_vertex] returns is an index
    in [[0, num_targets)], and the call has read exactly one draw; with
    [num_targets <= 0] no class returns a vertex. *)
Theorem choose_vertex_range (s : ChaosGame) (g g' : rng) (v : Z) :
  choose_vertex s g = Ok (v, g') ->
  0 <= v < num_targets s /\ g' = tl g /\
  (forall s0 g0, num_targets s0 <= 0 ->
                 forall v0 g1, choose_vertex s0 g0 <> Ok (v0, g1)).
Proof.
  intros H. apply choose_vertex_inv in H as [Hv Hg].
  split; [exact Hv|]. split; [exact Hg|].
  intros s0 g0 Hn v0 g1 H0.
  apply choose_vertex_inv in H0 as [Hv0 _]. lia.
Qed.

Lemma choose_vertex_range_witness :
  0 <= 5 < num_targets (hist_exc_session 5 1 [0; 0; 2]) /\ [] = tl [3] /\
  (forall s0 g0, num_targets s0 <= 0 ->
                 forall v0 g1, choose_vertex s0 g0 <> Ok (v0, g1)).
Proof.
  apply (choose_vertex_range (hist_exc_session 5 1 [0; 0; 2]) [3] [] 5).
  reflexivity.
Defined.

(** ** The history depth of [ChaosGameHistExc] *)

Lemma skipn_nil_iff {A : Type} (k : nat) (l : list A) :
  skipn k l = [] <-> (List.length l <= k)%nat.
Proof.
  split.
  - intros H. apply (f_equal (@List.length A)) in H.
    rewrite length_skipn in H. simpl in H. lia.
  - apply skipn_all2.
Qed.

(** The slice [verts[-hist_len:]] is empty only for a history depth at or
    below [-len(verts)]. *)
Lemma slice_from_neg_nil_iff {A : Type} (l : list A) (hl : Z) :
  l <> [] ->
  (slice_from l (- hl) = [] <-> hl <= - Z.of_nat (List.length l)).
Proof.
  intros Hne.
  assert (Hlen : (0 < List.length l)%nat).
  { destruct l; [congruence | simpl; lia]. }
  unfold slice_from. rewrite skipn_nil_iff.
  destruct (Z.ltb_spec (- hl) 0); lia.
Qed.

Lemma hist_exc_mask_empty_slice (n exc hl : Z) (vs : list Z) :
  slice_from vs (- hl) = [] -> hist_exc_mask n exc hl vs = Ok 0.
Proof.
  intros H. unfold hist_exc_mask. rewrite H. reflexivity.
Qed.

Lemma hist_exc_mask_nonempty_slice (n exc hl : Z) (vs : list Z) :
  slice_from vs (- hl) <> [] ->
  hist_exc_mask n exc hl vs
  = rbind (getitem vs (-1)) (fun last => lcyc n exc last).
Proof.
  intros Hne. unfold hist_exc_mask.
  rewrite <- (rfold_lor_const
                (rbind (getitem vs (-1)) (fun last => lcyc n exc last))
                (slice_from vs (- hl)) Hne).
  f_equal. destruct (getitem vs (-1)); reflexivity.
Qed.

(** X6: in [ChaosGameHistExc.choose_vertex] with a non-empty history, every
    history depth above [-len(verts)], zero and negative ones included,
    forbids the rotation of the mask by the last entry ([verts[-0:]] is the
    whole list); a depth at or below [-len(verts)] makes the slice empty,
    nothing is forbidden and the selection is the plain
    [randint(0, num_targets-1)]. *)
Theorem hist_len_edge (s : ChaosGame) (vs : list Z) (g : rng) :
  klass s = HistExc ->
  verts s = Some vs ->
  vs <> [] ->
  (- Z.of_nat (List.length vs) < hist_len s ->
   hist_exc_mask (num_targets s) (excluded s) (hist_len s) vs
   = rbind (getitem vs (-1))
       (fun last => lcyc (num_targets s) (excluded s) last)) /\
  (hist_len s <= - Z.of_nat (List.length vs) ->
   hist_exc_mask (num_targets s) (excluded s) (hist_len s) vs = Ok 0 /\
   choose_vertex s g = randint 0 (num_targets s - 1) g).
Proof.
  intros Hk Hvs Hne. split.
  - intros Hhl. apply hist_exc_mask_nonempty_slice.
    rewrite (slice_from_neg_nil_iff vs (hist_len s) Hne). lia.
  - intros Hhl.
    assert (Hmask : hist_exc_mask (num_targets s) (excluded s) (hist_len s) vs
                    = Ok 0).
    { apply hist_exc_mask_empty_slice.
      apply (slice_from_neg_nil_iff vs (hist_len s) Hne). exact Hhl. }
    split; [exact Hmask|].
    rewrite (choose_vertex_HistExc s vs g Hk Hvs), Hmask.
    unfold mbind, lift. rewrite verts_avail_0. apply pick_avail_range.
Qed.

Lemma hist_len_edge_witness :
  let s := hist_exc_session 5 (-3) [0; 0; 2] in
  (- Z.of_nat (List.length [0; 0; 2]) < hist_len s ->
   hist_exc_mask (num_targets s) (excluded s) (hist_len s) [0; 0; 2]
   = rbind (getitem [0; 0; 2] (-1))
       (fun last => lcyc (num_targets s) (excluded s) last)) /\
  (hist_len s <= - Z.of_nat (List.length [0; 0; 2]) ->
   hist_exc_mask (num_targets s) (excluded s) (hist_len s) [0; 0; 2] = Ok 0 /\
   choose_vertex s [2] = randint 0 (num_targets s - 1) [2]).
Proof.
  intros s.
  apply (hist_len_edge s [0; 0; 2] [2]);
    [reflexivity | reflexivity | discriminate].
Defined.

(** ** Exclusion by offset *)

Lemma land_shiftl_zero (exc v : Z) :
  0 <= v -> (Z.land exc (Z.shiftl 1 v) = 0 <-> Z.testbit exc v = false).
Proof.
  intros Hv. rewrite Z.shiftl_1_l. apply land_pow2_zero. exact Hv.
Qed.

Lemma forbidden_mask_rotation (s : ChaosGame) (vs : list Z) (a : Z) :
  exclusion_applies s vs a ->
  0 <= a <= num_targets s ->
  forbidden_mask s vs = Ok (lcyc_val (num_targets s) (excluded s) a).
Proof.
  intros (Ha & [[Hk Hhl]|[Hk Hb]]) Hrange; unfold forbidden_mask; rewrite Hk.
  - rewrite hist_exc_mask_nonempty_slice.
    + rewrite Ha. simpl. apply lcyc_ok. exact Hrange.
    + assert (Hne : vs <> []) by (eapply getitem_ok_nonempty; exact Ha).
      rewrite (slice_from_neg_nil_iff vs (hist_len s) Hne). lia.
  - rewrite Ha. simpl. rewrite Hb. simpl. rewrite Z.eqb_refl.
    apply lcyc_ok. exact Hrange.
Qed.

(** X7: when the exclusion applies ([ChaosGameHistExc] with a depth above
    [-len(verts)], or [ChaosGameHistExc2] after a repeated vertex), with
    [a] the last entry and an [N]-bit mask, a vertex [v] can be returned
    exactly when its offset [(v - a) mod N] from [a] is not an excluded
    offset: every returned vertex has a free offset, and every vertex in
    range with a free offset is returned for some draw. *)
Theorem exclusion_by_offset (s : ChaosGame) (vs : list Z) (a : Z) (g : rng) :
  verts s = Some vs ->
  exclusion_applies s vs a ->
  1 <= num_targets s ->
  0 <= a < num_targets s ->
  0 <= excluded s < 2 ^ num_targets s ->
  (forall v g',
      choose_vertex s g = Ok (v, g') ->
      0 <= v < num_targets s /\
      Z.testbit (excluded s) ((v - a) mod num_targets s) = false) /\
  (forall v,
      0 <= v < num_targets s ->
      Z.testbit (excluded s) ((v - a) mod num_targets s) = false ->
      exists r, choose_vertex s (r :: g) = Ok (v, g)).
Proof.
  intros Hvs Happ HN Ha Hm.
  pose proof (forbidden_mask_rotation s vs a Happ ltac:(lia)) as Hf.
  assert (Hav : forall v,
             In v (verts_avail (num_targets s)
                     (lcyc_val (num_targets s) (excluded s) a))
             <-> 0 <= v < num_targets s /\
                 Z.testbit (excluded s) ((v - a) mod num_targets s) = false).
  { intros v. rewrite in_verts_avail. split.
    - intros [Hv Hland]. split; [exact Hv|].
      apply land_shiftl_zero in Hland; [|lia].
      rewrite lcyc_val_bit in Hland by lia. exact Hland.
    - intros [Hv Hbit]. split; [exact Hv|].
      apply land_shiftl_zero; [lia|].
      rewrite lcyc_val_bit by lia. exact Hbit. }
  split.
  - intros v g' H.
    rewrite (choose_vertex_pick s vs _ g Hvs Hf) in H.
    apply pick_avail_inv in H as [Hin _]. apply Hav. exact Hin.
  - intros v Hv Hbit.
    destruct (pick_avail_any _ v g (proj2 (Hav v) (conj Hv Hbit))) as (r & Hr).
    exists r. rewrite (choose_vertex_pick s vs _ (r :: g) Hvs Hf). exact Hr.
Qed.

Lemma exclusion_by_offset_witness :
  let s := hist_exc_session 5 1 [0; 0; 2] in
  (forall v g',
      choose_vertex s [3] = Ok (v, g') ->
      0 <= v < num_targets s /\
      Z.testbit (excluded s) ((v - 2) mod num_targets s) = false) /\
  (forall v,
      0 <= v < num_targets s ->
      Z.testbit (excluded s) ((v - 2) mod num_targets s) = false ->
      exists r, choose_vertex s (r :: [3]) = Ok (v, [3])).
Proof.
  intros s.
  apply (exclusion_by_offset s [0; 0; 2] 2 [3]).
  - reflexivity.
  - split; [reflexivity|]. left. split; [reflexivity | simpl; lia].
  - simpl; lia.
  - simpl; lia.
  - simpl; lia.
Defined.

(** ** The shape of a batch, in every class *)

(** X8: in every class, a call [generate_points(n)] that returns leaves
    the settings of the constructor unchanged, keeps of the old points the
    last one only and appends [n] new points ([0] for a negative [n]), and
    leaves in [self.colors] the colour of each point of [self.points], in
    order. *)
Theorem generate_points_batch (n : Z) (s s' : ChaosGame) (g g' : rng) :
  generate_points n s g = Ok (s', g') ->
  settings s' = settings s /\
  (exists new,
      points s' = slice_from (points s) (-1) ++ new /\
      List.length new = Z.to_nat n) /\
  rmap (color_of (coloring s)) (points s') = Ok (colors s') /\
  List.length (colors s') = List.length (points s').
Proof.
  intros H. apply generate_points_shape in H
    as (Hset & _ & _ & Hcs & new & chosen & Hp & Hlen & _).
  split; [exact Hset|]. split; [exists new; split; assumption|].
  split; [exact Hcs|]. eapply rmap_length. exact Hcs.
Qed.

(** X9: a call [generate_points(n)] that returns has read exactly two draws
    for each of its [n] steps, the vertex first and the transformation
    second; with [n <= 0] it reads none. *)
Theorem generate_points_draws (n : Z) (s s' : ChaosGame) (g g' : rng) :
  generate_points n s g = Ok (s', g') ->
  g' = skipn (2 * Z.to_nat n)%nat g /\
  (n <= 0 -> g' = g) /\
  (forall s0 s1 g0 g1,
      gen_step s0 g0 = Ok (s1, g1) ->
      exists v t V,
        choose_vertex s0 g0 = Ok (v, tl g0) /\
        getitem (vertices s0) v = Ok V /\
        choose_transform s1 (PyTuple V) (tl g0) = Ok (Some t, g1) /\
        g1 = tl (tl g0)).
Proof.
  intros H. apply generate_points_shape in H as (_ & Hg & _).
  split; [exact Hg|]. split.
  - intros Hn. rewrite Hg. replace (Z.to_nat n) with 0%nat by lia.
    reflexivity.
  - intros s0 s1 g0 g1 Hstep.
    apply gen_step_inv in Hstep
      as (vs & v & g2 & V & t & last & Hvs & Hv & HV & Ht & Hlast & ->).
    pose proof (choose_vertex_inv _ _ _ _ Hv) as [_ ->].
    pose proof (choose_transform_inv _ _ _ _ _ Ht) as (Hk & _ & ->).
    exists v, t, V. split; [exact Hv|]. split; [exact HV|].
    split; [|reflexivity].
    unfold choose_transform in *. simpl in *. exact Ht.
Qed.

Lemma generate_points_draws_witness :
  exists s1,
    [0; 0] = skipn (2 * Z.to_nat 1)%nat [1; 0; 0; 0] /\
    (1 <= 0 -> [0; 0] = [1; 0; 0; 0]) /\
    (forall s0 s1' g0 g1,
        gen_step s0 g0 = Ok (s1', g1) ->
        exists v t V,
          choose_vertex s0 g0 = Ok (v, tl g0) /\
          getitem (vertices s0) v = Ok V /\
          choose_transform s1' (PyTuple V) (tl g0) = Ok (Some t, g1) /\
          g1 = tl (tl g0)) /\
    generate_points 1 (hexagon_session default_transformations) [1; 0; 0; 0]
    = Ok (s1, [0; 0]).
Proof.
  destruct hexagon_two_batches as (s1 & s2 & H1 & _).
  exists s1.
  pose proof (generate_points_draws 1 _ s1 [1; 0; 0; 0] [0; 0] H1)
    as (Ha & Hb & Hc).
  split; [exact Ha|]. split; [exact Hb|]. split; [exact Hc | exact H1].
Defined.

Lemma generate_points_batch_witness :
  exists s1,
    generate_points 1 (hexagon_session default_transformations) [1; 0; 0; 0]
    = Ok (s1, [0; 0]) /\
    settings s1 = settings (hexagon_session default_transformations) /\
    (exists new,
        points s1
        = slice_from (points (hexagon_session default_transformations)) (-1)
          ++ new /\
        List.length new = Z.to_nat 1) /\
    rmap (color_of (coloring (hexagon_session default_transformations)))
      (points s1) = Ok (colors s1) /\
    List.length (colors s1) = List.length (points s1).
Proof.
  destruct hexagon_two_batches as (s1 & s2 & H1 & _).
  exists s1. split; [exact H1|].
  exact (generate_points_batch 1 _ s1 [1; 0; 0; 0] [0; 0] H1).
Defined.

(** X10: after a call [generate_points(n)] that returns, [self.verts] is
    the last three entries of [[0, 0, 0]] followed by the vertices that
    [choose_vertex] returned to the [n] steps of the call, in order, each
    of them in [[0, num_targets)]: it has three entries, and from [n >= 3]
    on they are the last three vertices chosen. *)
Theorem generate_points_history (n : Z) (s s' : ChaosGame) (g g' : rng) :
  generate_points n s g = Ok (s', g') ->
  exists chosen hist,
    batch_chooses n s g chosen /\
    Forall (fun v => 0 <= v < num_targets s) chosen /\
    verts s' = Some hist /\
    hist = skipn (Z.to_nat n) ([0; 0; 0] ++ chosen) /\
    List.length hist = 3%nat /\
    (3 <= n -> hist = skipn (Z.to_nat n - 3) chosen /\
               Forall (fun v => 0 <= v < num_targets s) hist).
Proof.
  intros H. apply generate_points_chooses in H
    as (chosen & Hchosen & Hfor & Hverts).
  pose proof (proj1 Hchosen) as Hlenc.
  exists chosen, (skipn (Z.to_nat n) ([0; 0; 0] ++ chosen)).
  split; [exact Hchosen|]. split; [exact Hfor|]. split; [exact Hverts|].
  split; [reflexivity|].
  split.
  - rewrite length_skipn, length_app, Hlenc. cbn [List.length]. lia.
  - intros Hn.
    assert (Heq : skipn (Z.to_nat n) ([0; 0; 0] ++ chosen)
                  = skipn (Z.to_nat n - 3) chosen).
    { replace (Z.to_nat n) with ((Z.to_nat n - 3) + 3)%nat at 1 by lia.
      rewrite <- skipn_skipn. reflexivity. }
    split; [exact Heq|]. rewrite Heq.
    apply Forall_forall. intros v Hv.
    rewrite Forall_forall in Hfor. apply Hfor.
    rewrite <- (firstn_skipn (Z.to_nat n - 3) chosen).
    apply in_or_app. right. exact Hv.
Qed.

Lemma generate_points_history_witness :
  exists s3 chosen hist,
    generate_points 3 (hexagon_session default_transformations)
      [1; 0; 2; 0; 3; 0] = Ok (s3, []) /\
    batch_chooses 3 (hexagon_session default_transformations)
      [1; 0; 2; 0; 3; 0] chosen /\
    Forall (fun v => 0 <= v < 6) chosen /\
    verts s3 = Some hist /\
    hist = skipn (Z.to_nat 3) ([0; 0; 0] ++ chosen) /\
    List.length hist = 3%nat /\
    hist = skipn (Z.to_nat 3 - 3) chosen /\
    Forall (fun v => 0 <= v < 6) hist.
Proof.
  destruct hexagon_three_steps as (s3 & H3).
  destruct (generate_points_history 3 _ s3 [1; 0; 2; 0; 3; 0] [] H3)
    as (chosen & hist & Hb & Hf & Hv & Hh & Hl & Hlast).
  exists s3, chosen, hist.
  split; [exact H3|]. split; [exact Hb|]. split; [exact Hf|].
  split; [exact Hv|]. split; [exact Hh|]. split; [exact Hl|].
  apply Hlast. lia.
Defined.

(** X11: after a call [generate_points(n)] that returns, every point of
    [self.points] but the first is the image of the point before it under
    one of the session's transformations, anchored at that point and
    applied to one of the session's vertices. *)
Theorem generate_points_chain (n : Z) (s s' : ChaosGame) (g g' : rng) :
  generate_points n s g = Ok (s', g') ->
  chained (transformations s) (vertices s) (points s') /\
  (forall i p q,
      nth_error (points s') i = Some p ->
      nth_error (points s') (S i) = Some q ->
      exists t V, In t (transformations s) /\ In V (vertices s) /\
                  q = transform t p V).
Proof.
  intros H. apply generate_points_shape in H as (_ & _ & Hch & _).
  split; [exact Hch|].
  revert Hch. generalize (points s'). intros l.
  induction l as [|x l IH]; intros Hch i p q Hp Hq.
  - destruct i; discriminate.
  - destruct l as [|y l]; [destruct i; discriminate|].
    destruct Hch as [Hxy Hch].
    destruct i as [|i].
    + simpl in Hp, Hq. inversion Hp; inversion Hq; subst. exact Hxy.
    + simpl in Hp. apply (IH Hch i p q); assumption.
Qed.

Lemma generate_points_chain_witness :
  exists s1,
    generate_points 1 (hexagon_session default_transformations) [1; 0; 0; 0]
    = Ok (s1, [0; 0]) /\
    chained default_transformations (make_vertices 6) (points s1) /\
    (forall i p q,
        nth_error (points s1) i = Some p ->
        nth_error (points s1) (S i) = Some q ->
        exists t V, In t default_transformations /\ In V (make_vertices 6) /\
                    q = transform t p V).
Proof.
  destruct hexagon_two_batches as (s1 & s2 & H1 & _).
  exists s1. split; [exact H1|].
  exact (generate_points_chain 1 _ s1 [1; 0; 0; 0] [0; 0] H1).
Defined.

(** ** What the constructor leaves *)

(** X12: the constructor returns a session only with at least one vertex:
    with [num_targets <= 0] and a point size as [quality] it raises the
    [TypeError] of a scatter without coordinates.  A session that it
    returns has [num_targets] vertices, one for every index in
    [[0, num_targets)], the first of them [(1, 0)] for an even count; its
    points are the origin alone, and it has no colours and no history. *)
Theorem init_vertices (q : quality) (n : Z) (ts : list Transformation)
    (col : list (list R)) :
  (forall r : R, n <= 0 -> ChaosGame_init (Size r) n ts col = Raise TypeError) /\
  (forall s : ChaosGame,
      ChaosGame_init q n ts col = Ok s ->
      1 <= n /\
      num_targets s = n /\
      List.length (vertices s) = Z.to_nat n /\
      (forall i, 0 <= i < n -> exists V, getitem (vertices s) i = Ok V) /\
      (n mod 2 = 0 -> getitem (vertices s) 0 = Ok (1, 0)%R) /\
      points s = [(0, 0)%R] /\ colors s = [] /\ verts s = None).
Proof.
  split.
  - intros r Hn. unfold ChaosGame_init. simpl.
    rewrite scatter_make_vertices.
    destruct (Z.leb_spec 1 n); [lia | reflexivity].
  - intros s H. apply ChaosGame_init_inv in H as (Hn & size & _ & ->).
    simpl. split; [exact Hn|]. split; [reflexivity|].
    split; [apply length_make_vertices|].
    split.
    + intros i Hi. apply getitem_in_range.
      rewrite length_make_vertices. lia.
    + split; [|repeat split].
      intros Heven. unfold make_vertices.
      apply Z.eqb_eq in Heven. rewrite Heven.
      unfold range. destruct (Z.to_nat n) as [|k] eqn:Hk; [lia|].
      unfold getitem. cbn [seq map List.length].
      change (0 <? 0) with false. cbv iota.
      replace ((0 <=? 0) && (0 <? Z.of_nat (S (List.length
                 (map (fun i : Z =>
                         (cos (2 * PI / IZR n * IZR i),
                          sin (2 * PI / IZR n * IZR i))%R)
                    (map Z.of_nat (seq 1 k)))))))
        with true by (symmetry; apply andb_true_intro; split;
                      [reflexivity | apply Z.ltb_lt; lia]).
      cbn [Z.to_nat nth_error Z.of_nat].
      rewrite Rmult_0_r, cos_0, sin_0. reflexivity.
Qed.

Lemma init_vertices_witness :
  ChaosGame_init (Size 1) 0 default_transformations default_coloring
  = Raise TypeError /\
  (exists s,
      ChaosGame_init (Size 1) 6 default_transformations default_coloring
      = Ok s /\
      num_targets s = 6 /\
      List.length (vertices s) = Z.to_nat 6 /\
      (exists V, getitem (vertices s) 5 = Ok V) /\
      getitem (vertices s) 0 = Ok (1, 0)%R /\
      points s = [(0, 0)%R] /\ colors s = [] /\ verts s = None).
Proof.
  split.
  - apply (proj1 (init_vertices (Size 1) 0 default_transformations
                    default_coloring) 1%R).
    lia.
  - exists (hexagon_session default_transformations).
    destruct (proj2 (init_vertices (Size 1) 6 default_transformations
                       default_coloring)
                (hexagon_session default_transformations) eq_refl)
      as (_ & Hn & Hlen & Hget & Hfirst & Hrest).
    split; [reflexivity|]. split; [exact Hn|]. split; [exact Hlen|].
    split; [apply Hget; lia|]. split; [apply Hfirst; reflexivity|].
    exact Hrest.
Defined.

(** ** The first vertex of a batch *)

(** X18: every batch starts from the history [[0, 0, 0]], so its first
    selection treats vertex [0] as visited, and visited twice: in
    [ChaosGameHistExc] (depth above [-3]) and in [ChaosGameHistExc2], with
    a [num_targets]-bit mask, the first vertex chosen in a batch is never
    an excluded offset itself. *)
Theorem first_vertex_of_batch (s : ChaosGame) (g g' : rng) (v : Z) :
  (klass s = HistExc /\ -3 < hist_len s) \/ klass s = HistExc2 ->
  1 <= num_targets s ->
  0 <= excluded s < 2 ^ num_targets s ->
  choose_vertex (reset s) g = Ok (v, g') ->
  0 <= v < num_targets s /\ Z.testbit (excluded s) v = false.
Proof.
  intros Hk HN Hm H.
  assert (Happ : exclusion_applies (reset s) [0; 0; 0] 0).
  { split; [reflexivity|]. destruct Hk as [[Hk Hhl]|Hk].
    - left. split; [exact Hk | simpl; lia].
    - right. split; [exact Hk | reflexivity]. }
  pose proof (forbidden_mask_rotation (reset s) [0; 0; 0] 0 Happ
                ltac:(simpl; lia)) as Hf.
  rewrite (choose_vertex_pick (reset s) [0; 0; 0] _ g eq_refl Hf) in H.
  apply pick_avail_inv in H as [Hin _].
  apply in_verts_avail in Hin as [Hv Hland]. simpl in Hv, Hland.
  split; [exact Hv|].
  apply land_shiftl_zero in Hland; [|lia].
  rewrite lcyc_val_bit in Hland by lia.
  rewrite Z.sub_0_r, Z.mod_small in Hland by lia. exact Hland.
Qed.

Lemma first_vertex_of_batch_witness :
  0 <= 1 < num_targets no_repeat_session /\
  Z.testbit (excluded no_repeat_session) 1 = false.
Proof.
  apply (first_vertex_of_batch no_repeat_session [0] [] 1).
  - left. split; [reflexivity | simpl; lia].
  - simpl; lia.
  - change (0 <= 1 < 64). lia.
  - reflexivity.
Defined.

(** ** The method of [ChaosGameTargetTransform] *)

(** X20: [ChaosGameTargetTransform.choose_transform(vert)] reads no draw;
    for an integer it is the list access [transformations[vert]]: the
    entry of that index for [0 <= vert < len], the entry [len + vert] for
    [-len <= vert < 0], and [IndexError] otherwise; for the tuple that
    [generate_points] passes it raises [TypeError]. *)
Theorem choose_transform_target (s : ChaosGame) (g : rng) :
  klass s = TargetTransform ->
  let ts := transformations s in
  let len := Z.of_nat (List.length ts) in
  (forall v,
      choose_transform s (PyInt v) g =
      if (0 <=? v) && (v <? len)
      then match nth_error ts (Z.to_nat v) with
           | Some t => Ok (Some t, g)
           | None => Raise IndexError
           end
      else if (- len <=? v) && (v <? 0)
      then match nth_error ts (Z.to_nat (len + v)) with
           | Some t => Ok (Some t, g)
           | None => Raise IndexError
           end
      else Raise IndexError) /\
  (forall v, 0 <= v < len ->
             exists t, nth_error ts (Z.to_nat v) = Some t /\
                       choose_transform s (PyInt v) g = Ok (Some t, g)) /\
  (forall V, choose_transform s (PyTuple V) g = Raise TypeError).
Proof.
  intros Hk ts len.
  assert (Hgen : forall v,
             choose_transform s (PyInt v) g =
             if (0 <=? v) && (v <? len)
             then match nth_error ts (Z.to_nat v) with
                  | Some t => Ok (Some t, g)
                  | None => Raise IndexError
                  end
             else if (- len <=? v) && (v <? 0)
             then match nth_error ts (Z.to_nat (len + v)) with
                  | Some t => Ok (Some t, g)
                  | None => Raise IndexError
                  end
             else Raise IndexError).
  { intros v. rewrite choose_transform_indexed by exact Hk.
    unfold lift, rbind, getitem. fold ts. fold len.
    destruct (Z.ltb_spec v 0) as [Hneg|Hpos].
    - destruct (Z.leb_spec 0 v); [lia|]. simpl.
      destruct (Z.leb_spec 0 (len + v)), (Z.leb_spec (- len) v),
        (Z.ltb_spec (len + v) len); simpl; try lia; try reflexivity.
      destruct (nth_error ts (Z.to_nat (len + v))); reflexivity.
    - destruct (Z.leb_spec 0 v); [|lia]. simpl.
      destruct (Z.ltb_spec v len); simpl.
      + destruct (nth_error ts (Z.to_nat v)); reflexivity.
      + destruct (Z.leb_spec (- len) v); reflexivity. }
  split; [exact Hgen|]. split.
  - intros v Hv. rewrite Hgen.
    destruct (Z.leb_spec 0 v); [|lia].
    destruct (Z.ltb_spec v len); [|lia]. simpl.
    destruct (nth_error ts (Z.to_nat v)) as [t|] eqn:Hn.
    + exists t. split; reflexivity.
    + apply nth_error_None in Hn. unfold len in *. lia.
  - intros V. unfold choose_transform. rewrite Hk. reflexivity.
Qed.

Lemma choose_transform_target_witness :
  let s := set_subclass (hexagon_session six_transformations)
             TargetTransform 0 0 in
  choose_transform s (PyTuple (1, 0)%R) [3] = Raise TypeError.
Proof.
  intros s.
  exact (proj2 (proj2 (choose_transform_target s [3] eq_refl)) (1, 0)%R).
Defined.
